(** * Visualize-F1: the data-fetch helpers and the lap-time prediction block

    A shallow embedding of
      - [src/app.py]            (model loading, feature-importance ranking,
                                 the [key=value] feature parser and its
                                 button handler),
      - [src/trial/try2.py]     (cache check and bulk refresh),
      - [src/trial/f1 - Copy.py] (fastest lap and telemetry helpers),
    followed by the properties the specification states about them.

    Conventions.  A Python [str] is a [string] whose characters are code
    points U+0000..U+00FF (one [ascii] per code point).  A Python [float]
    is a binary64 value ([PrimFloat.float]); decimal text is converted with
    round-to-nearest-even through [SpecFloat].  A [dict] is a [gmap].
    Exceptions are values of a sum type. *)

From Stdlib Require Import ZArith NArith String Ascii List Bool Lia.
From Stdlib Require Import QArith Lqa.
From Stdlib Require Import Floats.PrimFloat Floats.SpecFloat Floats.FloatOps.
From Stdlib Require Import Sorting.Sorted Sorting.Permutation.
From stdpp Require Import gmap strings list pretty sorting.

Set Default Proof Using "Type".

(** ** Python string primitives *)

Module PyStr.

Local Open Scope string_scope.
Local Open Scope N_scope.

Definition ord (c : ascii) : N := N_of_ascii c.

(** [str.isspace] on one character, for code points below 256:
    TAB..CR, FS..US, SPACE, NEL and NBSP. *)
Definition isspace (c : ascii) : bool :=
  let n := ord c in
  ((9 <=? n) && (n <=? 13)) || ((28 <=? n) && (n <=? 32))
  || (n =? 133) || (n =? 160).

(** The line boundaries of [str.splitlines] below 256:
    LF, VT, FF, CR, FS, GS, RS and NEL ([CR LF] counts once). *)
Definition islinebreak (c : ascii) : bool :=
  let n := ord c in
  ((10 <=? n) && (n <=? 13)) || ((28 <=? n) && (n <=? 30)) || (n =? 133).

Definition is_empty (s : string) : bool :=
  match s with EmptyString => true | String _ _ => false end.

Fixpoint lstrip (s : string) : string :=
  match s with
  | EmptyString => EmptyString
  | String c s' => if isspace c then lstrip s' else s
  end.

Fixpoint rstrip (s : string) : string :=
  match s with
  | EmptyString => EmptyString
  | String c s' =>
      match rstrip s' with
      | EmptyString => if isspace c then EmptyString else String c EmptyString
      | r => String c r
      end
  end.

(** [s.strip()] *)
Definition strip (s : string) : string := rstrip (lstrip s).

(** [c in s] for a one-character [c]. *)
Fixpoint contains (c : ascii) (s : string) : bool :=
  match s with
  | EmptyString => false
  | String a s' => if Ascii.eqb a c then true else contains c s'
  end.

(** The text before and after the first [sep], when there is one. *)
Fixpoint partition_at (sep : ascii) (s : string) : option (string * string) :=
  match s with
  | EmptyString => None
  | String a s' =>
      if Ascii.eqb a sep then Some (EmptyString, s')
      else match partition_at sep s' with
           | Some (l, r) => Some (String a l, r)
           | None => None
           end
  end.

(** [s.split(sep, maxsplit)] for a one-character separator and
    [maxsplit >= 0]. *)
Fixpoint split (sep : ascii) (maxsplit : nat) (s : string) : list string :=
  match maxsplit with
  | O => [s]
  | S n =>
      match partition_at sep s with
      | None => [s]
      | Some (l, r) => l :: split sep n r
      end
  end.

(** [s.splitlines()]: [cur] is the line read so far.  A boundary ends the
    current line, also an empty one; text after the last boundary is a line
    only when it is not empty. *)
Fixpoint splitlines_from (cur : string) (s : string) : list string :=
  match s with
  | EmptyString => if is_empty cur then [] else [cur]
  | String c s' =>
      if islinebreak c then
        cur :: match s' with
               | String c' s'' =>
                   if (ord c =? 13) && (ord c' =? 10)
                   then splitlines_from EmptyString s''
                   else splitlines_from EmptyString s'
               | EmptyString => splitlines_from EmptyString s'
               end
      else splitlines_from (cur +:+ String c EmptyString) s'
  end.

Definition splitlines (s : string) : list string :=
  splitlines_from EmptyString s.

(** ASCII lower-casing, as the case-insensitive match of [float] does. *)
Definition lower (c : ascii) : ascii :=
  let n := ord c in
  if (65 <=? n) && (n <=? 90) then ascii_of_N (n + 32) else c.

Fixpoint lower_str (s : string) : string :=
  match s with
  | EmptyString => EmptyString
  | String c s' => String (lower c) (lower_str s')
  end.

(** The position of the first [c] in [s]. *)
Fixpoint find (c : ascii) (s : string) : option nat :=
  match s with
  | EmptyString => None
  | String a s' =>
      if Ascii.eqb a c then Some O else option_map S (find c s')
  end.

End PyStr.

(** ** The builtin [float(str)] *)

Module PyFloat.

Local Open Scope string_scope.

Definition is_digit (c : ascii) : bool :=
  let n := PyStr.ord c in ((48 <=? n) && (n <=? 57))%N.

Definition digit_val (c : ascii) : N := (PyStr.ord c - 48)%N.

(** [float] removes surrounding white space itself: the C white space
    TAB..CR and SPACE, and NEL and NBSP, which it first turns into spaces. *)
Definition isspace (c : ascii) : bool :=
  let n := PyStr.ord c in
  (((9 <=? n) && (n <=? 13)) || (n =? 32) || (n =? 133) || (n =? 160))%N.

Fixpoint lstrip (s : string) : string :=
  match s with
  | EmptyString => EmptyString
  | String c s' => if isspace c then lstrip s' else s
  end.

Fixpoint rstrip (s : string) : string :=
  match s with
  | EmptyString => EmptyString
  | String c s' =>
      match rstrip s' with
      | EmptyString => if isspace c then EmptyString else String c EmptyString
      | r => String c r
      end
  end.

(** Digit grouping: an underscore is accepted only between two digits and
    is dropped; [prev] is the character just read. *)
Fixpoint drop_underscores (prev : option ascii) (s : string) : option string :=
  match s with
  | EmptyString =>
      match prev with
      | Some "_"%char => None
      | _ => Some EmptyString
      end
  | String c s' =>
      if Ascii.eqb c "_" then
        match prev with
        | Some p => if is_digit p then drop_underscores (Some c) s' else None
        | None => None
        end
      else
        match prev with
        | Some "_"%char =>
            if is_digit c
            then option_map (String c) (drop_underscores (Some c) s')
            else None
        | _ => option_map (String c) (drop_underscores (Some c) s')
        end
  end.

Definition take_sign (s : string) : bool * string :=
  match s with
  | String "-" r => (true, r)
  | String "+" r => (false, r)
  | _ => (false, s)
  end.

(** Reads the leading digits of [s] onto the decimal numeral [acc]; returns
    the numeral, the number of digits read ([cnt] more) and the rest. *)
Fixpoint take_digits (acc : N) (cnt : nat) (s : string) : N * nat * string :=
  match s with
  | String c s' =>
      if is_digit c then take_digits (10 * acc + digit_val c)%N (S cnt) s'
      else (acc, cnt, s)
  | EmptyString => (acc, cnt, s)
  end.

(** An exponent part [e|E [sign] digits] that ends the text. *)
Definition parse_exponent (s : string) : option Z :=
  match s with
  | EmptyString => Some 0%Z
  | String c r =>
      if Ascii.eqb (PyStr.lower c) "e" then
        let '(neg, r1) := take_sign r in
        let '(ev, ne, r2) := take_digits 0 0 r1 in
        match ne, r2 with
        | S _, EmptyString => Some (if neg then - Z.of_N ev else Z.of_N ev)%Z
        | _, _ => None
        end
      else None
  end.

(** [digits [. [digits]] [exponent]] or [. digits [exponent]], read as
    mantissa [m] and decimal exponent [e]: the text denotes [m * 10^e]. *)
Definition parse_number (s : string) : option (N * Z) :=
  let '(iv, ni, r1) := take_digits 0 0 s in
  let '(m, nf, r2) :=
    match r1 with
    | String "." r => take_digits iv 0 r
    | _ => (iv, O, r1)
    end in
  match (ni + nf)%nat with
  | O => None
  | S _ =>
      match parse_exponent r2 with
      | Some ex => Some (m, (ex - Z.of_nat nf)%Z)
      | None => None
      end
  end.

(** The binary64 value nearest to [(-1)^neg * m * 10^e] (ties to even,
    overflow to infinity). *)
Definition of_decimal (neg : bool) (m : N) (e : Z) : float :=
  SF2Prim
    match m with
    | N0 => S754_zero neg
    | Npos p =>
        match e with
        | Z0 => binary_normalize prec emax
                  (if neg then Z.neg p else Z.pos p) 0 false
        | Z.pos k => binary_normalize prec emax
                       (if neg then Z.neg (p * 10 ^ k) else Z.pos (p * 10 ^ k))
                       0 false
        | Z.neg k => SFdiv prec emax (S754_finite neg p 0)
                       (S754_finite false (10 ^ k) 0)
        end
    end.

(** [float(s)]; [None] stands for [ValueError]. *)
Definition py_float (s : string) : option float :=
  match drop_underscores None (rstrip (lstrip s)) with
  | None => None
  | Some t =>
      let '(neg, body) := take_sign t in
      let low := PyStr.lower_str body in
      if String.eqb low "inf" || String.eqb low "infinity"
      then Some (if neg then neg_infinity else infinity)
      else if String.eqb low "nan" then Some nan
      else match parse_number body with
           | Some (m, e) => Some (of_decimal neg m e)
           | None => None
           end
  end.

End PyFloat.

(** ** The feature parser of the prediction tab ([src/app.py], tab 6) *)

Local Open Scope string_scope.
Local Open Scope list_scope.

(** A value stored in [feature_dict]: a float, or the text itself. *)
Inductive pyval : Type :=
| VFloat (num_val : float)
| VStr (val : string).

(** An exception that leaves the code under study. *)
Inductive pyexn : Type :=
| ValueError (msg : string)
| OtherError (msg : string).

(** One round of [for line in user_kv_text.splitlines()].  Unpacking
    [key, val = line.split("=", 1)] raises [ValueError] unless the list has
    two elements. *)
Definition feature_line (feature_dict : gmap string pyval) (line : string)
  : pyexn + gmap string pyval :=
  let line := PyStr.strip line in
  if PyStr.is_empty line || negb (PyStr.contains "=" line) then
    inr feature_dict
  else
    match PyStr.split "=" 1 line with
    | [key; val] =>
        let key := PyStr.strip key in
        let val := PyStr.strip val in
        match PyFloat.py_float val with
        | Some num_val => inr (<[key := VFloat num_val]> feature_dict)
        | None => inr (<[key := VStr val]> feature_dict)
        end
    | _ => inl (ValueError "not enough values to unpack (expected 2, got 1)")
    end.

Fixpoint feature_loop (lines : list string) (feature_dict : gmap string pyval)
  : pyexn + gmap string pyval :=
  match lines with
  | [] => inr feature_dict
  | line :: rest =>
      match feature_line feature_dict line with
      | inl e => inl e
      | inr d => feature_loop rest d
      end
  end.

(** [feature_dict = {}] followed by the loop. *)
Definition parse_features (lines : list string) : pyexn + gmap string pyval :=
  feature_loop lines ∅.

(** What the page does, in order: the calls into Streamlit and into the
    model.  [StShow] stands for a call that displays fixed content. *)
Inductive st_event : Type :=
| StShow (what : string)
| StWarning (msg : string)
| StWrite (msg : string)
| StDataframe (input_df : gmap string pyval)
| ModelPredict (input_df : gmap string pyval)
| StSuccess (y_pred : float)
| StError (msg : string)
| StInfo (msg : string)
| StPyplot (bars : list (string * Z)).

Section PredictButton.

(** [model_pipe.predict(input_df)[0]], or the message of the exception it
    raises. *)
Variable predict : gmap string pyval -> string + float.

(** The body of [if st.button(..., key="predict_laptime_btn")]. *)
Definition predict_laptime_btn (user_kv_text : string)
  : pyexn + list st_event :=
  if PyStr.is_empty (PyStr.strip user_kv_text) then
    inr [StWarning "Please provide at least one `key=value` pair."]
  else
    match parse_features (PyStr.splitlines user_kv_text) with
    | inl e => inl e
    | inr feature_dict =>
        if (size feature_dict =? 0)%nat then
          inr [StWarning "No valid `key=value` pairs were parsed."]
        else
          inr ([StWrite "Parsed features sent to the model:";
                StDataframe feature_dict;
                ModelPredict feature_dict]
               ++ match predict feature_dict with
                  | inr y_pred => [StSuccess y_pred]
                  | inl e =>
                      [StError ("Model could not predict with these inputs: " +:+ e);
                       StInfo ("Check that the feature names and types match those used in training "
                               +:+ "(same raw column names as in your notebook before preprocessing).")]
                  end)
    end.

End PredictButton.

(** *** The parsing rule in the specification's words *)

(** Numeric coercion with fall-back to the text. *)
Definition coerce (val : string) : pyval :=
  match PyFloat.py_float val with
  | Some x => VFloat x
  | None => VStr val
  end.

(** Trim; skip a line that is blank or has no [=]; cut at the position of
    the FIRST [=]; trim both sides; coerce the value. *)
Definition line_entry (line : string) : option (string * pyval) :=
  let t := PyStr.strip line in
  match PyStr.find "=" t with
  | None => None
  | Some i =>
      let key := substring 0 i t in
      let val := substring (S i) (String.length t - S i) t in
      Some (PyStr.strip key, coerce (PyStr.strip val))
  end.

Definition apply_entry (d : gmap string pyval) (line : string)
  : gmap string pyval :=
  match line_entry line with
  | Some (k, v) => <[k := v]> d
  | None => d
  end.

(** The values the lines give to key [k], in line order. *)
Definition values_for (k : string) (lines : list string) : list pyval :=
  omap (fun line =>
          match line_entry line with
          | Some (k', v) => if String.eqb k' k then Some v else None
          | None => None
          end) lines.


(** Two lines giving the same key. *)
Definition duplicate_key_text : string := "a=1" +:+ String "010" "a=2".

(** A blank line followed by a line without [=]. *)
Definition no_pair_text : string := "   " +:+ String "010" "lap_number 12".

(** ** The cache check and the bulk refresh ([src/trial/try2.py]) *)

(** What a path names on disk. *)
Inductive fs_node : Type :=
| Directory
| RegularFile (content : string).

(** The disk, by path relative to the working directory. *)
Abbreviation filesystem := (gmap string fs_node).

(** [os.path.exists(path)] for a path in normal form (no empty, [.] or
    [..] component, no trailing [/]): such a path exists when it names
    something on the disk.  Other spellings of a path are not resolved. *)
Definition path_exists (fs : filesystem) (path : string) : bool :=
  bool_decide (is_Some (fs !! path)).

(** [f"cache/{year}/{gp_name}/{session_name}"] *)
Definition cache_path (year : Z) (gp_name session_name : string) : string :=
  "cache/" +:+ pretty year +:+ "/" +:+ gp_name +:+ "/" +:+ session_name.

Definition session_exists (fs : filesystem) (year : Z)
    (gp_name session_name : string) : bool :=
  path_exists fs (cache_path year gp_name session_name).

(** The regular files stored below directory [dir]. *)
Definition files_under (fs : filesystem) (dir : string)
  : list (string * string) :=
  omap (fun '(path, node) =>
          match node with
          | RegularFile content =>
              if String.prefix (dir +:+ "/") path then Some (path, content)
              else None
          | Directory => None
          end) (map_to_list fs).

Definition SEASONS : list Z := [2023; 2024]%Z.
Definition SESSIONS : list string := ["FP1"; "FP2"; "FP3"; "Q"; "SQ"; "R"].

(** One printed line; the three fields are year, event name and session
    type. *)
Inductive log_line : Type :=
| Checking (year : Z) (gp_name session_name : string)
| DataLoaded (year : Z) (gp_name session_name : string)
| NoLapsData (year : Z) (gp_name session_name : string)
| FailedFor (year : Z) (gp_name session_name : string) (e : string)
| Cached (year : Z) (gp_name session_name : string)
| AllSessionsChecked.

(** The items of one season, in iteration order. *)
Definition season_items (season : Z) (events sessions : list string)
  : list (Z * string * string) :=
  flat_map (fun gp_name =>
              map (fun session_name => (season, gp_name, session_name))
                  sessions) events.

Section BulkRefresh.

(** Everything outside the script: the disk, the network, the provider. *)
Variable World : Type.
Variable disk : World → filesystem.

(** [fastf1.get_event_schedule(season)]: the [EventName] of each row, or
    the exception raised. *)
Variable get_event_schedule : Z → World → (pyexn + list string) * World.

(** [fastf1.get_session(...)], [session.load()] and [session.laps.empty]:
    whether the lap table is empty, or the message of the [Exception]
    raised on the way. *)
Variable load_session_laps :
  Z → string → string → World → (string + bool) * World.

Definition fetch_session_data (year : Z) (gp_name session_name : string)
    (w : World) : list log_line * World :=
  let '(r, w') := load_session_laps year gp_name session_name w in
  match r with
  | inr laps_empty =>
      if negb laps_empty
      then ([Checking year gp_name session_name;
             DataLoaded year gp_name session_name], w')
      else ([Checking year gp_name session_name;
             NoLapsData year gp_name session_name], w')
  | inl e =>
      ([Checking year gp_name session_name;
        FailedFor year gp_name session_name e], w')
  end.

(** [for session_name in SESSIONS] *)
Fixpoint scan_sessions (season : Z) (gp_name : string)
    (sessions : list string) (w : World) : list log_line * World :=
  match sessions with
  | [] => ([], w)
  | session_name :: rest =>
      let '(out, w1) :=
        if negb (session_exists (disk w) season gp_name session_name)
        then fetch_session_data season gp_name session_name w
        else ([Cached season gp_name session_name], w) in
      let '(out', w2) := scan_sessions season gp_name rest w1 in
      (out ++ out', w2)
  end.

(** [for _, event in schedule.iterrows()] *)
Fixpoint scan_events (season : Z) (events : list string)
    (sessions : list string) (w : World) : list log_line * World :=
  match events with
  | [] => ([], w)
  | gp_name :: rest =>
      let '(out, w1) := scan_sessions season gp_name sessions w in
      let '(out', w2) := scan_events season rest sessions w1 in
      (out ++ out', w2)
  end.

(** [for season in SEASONS]; the schedule is fetched outside any [try],
    so an exception there ends the script. *)
Fixpoint scan_seasons (seasons : list Z) (sessions : list string)
    (w : World) : list log_line * World * option pyexn :=
  match seasons with
  | [] => ([], w, None)
  | season :: rest =>
      let '(r, w0) := get_event_schedule season w in
      match r with
      | inl e => ([], w0, Some e)
      | inr events =>
          let '(out, w1) := scan_events season events sessions w0 in
          let '(out', w2, err) := scan_seasons rest sessions w1 in
          (out ++ out', w2, err)
      end
  end.

(** The items the season loop iterates over: those of every schedule it
    obtains, up to the first schedule that cannot be fetched. *)
Fixpoint refreshed_items (seasons : list Z) (sessions : list string)
    (w : World) : list (Z * string * string) :=
  match seasons with
  | [] => []
  | season :: rest =>
      let '(r, w0) := get_event_schedule season w in
      match r with
      | inl _ => []
      | inr events =>
          season_items season events sessions
          ++ refreshed_items rest sessions
               (scan_events season events sessions w0).2
      end
  end.

(** The script from [# Scan and download] on. *)
Definition bulk_refresh (w : World) : list log_line * World * option pyexn :=
  let '(out, w', err) := scan_seasons SEASONS SESSIONS w in
  match err with
  | None => (out ++ [AllSessionsChecked], w', None)
  | Some e => (out, w', Some e)
  end.

End BulkRefresh.

(** The final status of one (season, event, session type) item. *)
Inductive item_status : Type :=
| StatusCached
| StatusFetched (laps_empty : bool)
| StatusFailed (e : string).

Definition status_of (l : log_line)
  : option (Z * string * string * item_status) :=
  match l with
  | Checking _ _ _ => None
  | DataLoaded y g s => Some (y, g, s, StatusFetched false)
  | NoLapsData y g s => Some (y, g, s, StatusFetched true)
  | FailedFor y g s e => Some (y, g, s, StatusFailed e)
  | Cached y g s => Some (y, g, s, StatusCached)
  | AllSessionsChecked => None
  end.

Definition statuses (out : list log_line)
  : list (Z * string * string * item_status) :=
  omap status_of out.

(** The disk after a fetch of the 2023 Bahrain qualifying was interrupted
    right after its directory was made: the directories are there, no file
    is. *)
Definition interrupted_fetch : filesystem :=
  {[ "cache" := Directory;
     "cache/2023" := Directory;
     "cache/2023/Bahrain Grand Prix" := Directory;
     "cache/2023/Bahrain Grand Prix/Q" := Directory ]}.

(** ** Fastest lap and telemetry ([src/trial/f1 - Copy.py]) *)

Module F1.

(** One row of the lap table.  [LapTime] is a duration in nanoseconds,
    [None] when the lap has no time. *)
Record Lap : Type := {
  Driver : string;
  LapNumber : nat;
  LapTime : option Z
}.

Record Session : Type := { laps : list Lap }.

(** Modelled from the spec: [Laps.pick_drivers] of the fastf1 library is not
    part of the sources; it keeps the laps of the given driver, in order. *)
Definition pick_drivers (ls : list Lap) (driver_code : string) : list Lap :=
  filter (fun lap => Driver lap = driver_code) ls.

(** The earlier of two candidates unless the later is strictly faster. *)
Definition faster (best : option Lap) (lap : Lap) : option Lap :=
  match LapTime lap with
  | None => best
  | Some t =>
      match best with
      | None => Some lap
      | Some b =>
          match LapTime b with
          | Some tb => if (t <? tb)%Z then Some lap else best
          | None => Some lap
          end
      end
  end.

(** Modelled from the spec: [Laps.pick_fastest] of the fastf1 library is not
    part of the sources; per the specification it selects the minimum
    [LapTime] among the laps with a time and is null when there is none. *)
Definition pick_fastest (ls : list Lap) : option Lap :=
  fold_left faster ls None.

Definition get_fastest_lap (session : Session) (driver_code : string)
  : option Lap :=
  let driver_laps := pick_drivers (laps session) driver_code in
  let fastest_lap := pick_fastest driver_laps in
  fastest_lap.

(** One raw car-data sample: time since the start of the lap in
    nanoseconds, speed in km/h. *)
Record Sample : Type := {
  Time : Z;
  Speed : N
}.

(** Metres covered in the step from time [t_prev] to sample [s]:
    speed / 3.6 * seconds. *)
Definition step_distance (t_prev : Z) (s : Sample) : Q :=
  (inject_Z (Z.of_N (Speed s)) / (36 # 10))
  * (inject_Z (Time s - t_prev) / inject_Z (10 ^ 9)).

Fixpoint integrate (t_prev : Z) (d_prev : Q) (samples : list Sample)
  : list (Sample * Q) :=
  match samples with
  | [] => []
  | s :: rest =>
      let d := (d_prev + step_distance t_prev s)%Q in
      (s, d) :: integrate (Time s) d rest
  end.

(** Modelled from the spec: [Telemetry.add_distance] of the fastf1 library
    is not part of the sources; per the specification it adds to every raw
    sample the cumulative distance, integrating speed over the time
    samples and starting at 0. *)
Definition add_distance (samples : list Sample) : list (Sample * Q) :=
  match samples with
  | [] => []
  | s :: rest => (s, 0%Q) :: integrate (Time s) 0%Q rest
  end.

Section Telemetry.

(** [lap.get_car_data()]: the raw samples of a lap. *)
Variable get_car_data : Lap → list Sample.

Definition get_telemetry_data (fastest_lap : Lap) : list (Sample * Q) :=
  let telemetry := add_distance (get_car_data fastest_lap) in
  telemetry.

End Telemetry.

(** Samples in time order. *)
Definition time_ordered (samples : list Sample) : Prop :=
  Sorted (fun a b => (Time a <= Time b)%Z) samples.

End F1.

(** Two samples one second apart, for a lap of driver VER. *)
Definition sample_lap : F1.Lap :=
  {| F1.Driver := "VER"; F1.LapNumber := 12; F1.LapTime := Some 92345000000%Z |}.

Definition sample_car_data (_ : F1.Lap) : list F1.Sample :=
  [ {| F1.Time := 0; F1.Speed := 100 |};
    {| F1.Time := 1000000000; F1.Speed := 180 |} ].

(** ** The model and its tab ([src/app.py]) *)

(** The loaded pipeline, as far as the page looks into it. *)
Record Pipeline : Type := {
  (** [named_steps.get("pre")], with what [get_feature_names_out()]
      returns or the message of the exception it raises *)
  pre_step : option (string + list string);
  (** [named_steps.get("model")], with its [feature_importances_] when it
      has the attribute *)
  model_step : option (option (list Z));
  (** [model_pipe.predict(input_df)[0]] *)
  predict : gmap string pyval → string + float
}.

Section ModelTab.

(** [joblib.load(path)]: the pipeline, or the message of the exception. *)
Variable joblib_load : string → string + Pipeline.

(** [DataFrame.sort_values("importance", ascending=False)] with the
    default [kind]: pandas promises a reordering of the rows with
    importance descending, and stability only for the kinds [mergesort]
    and [stable]. *)
Variable sort_values : list (string * Z) → list (string * Z).

(** The body of [load_laptime_model], with what it shows; the decorator
    [st.cache_resource] keeps the result for later calls.  (The message
    is printed without its leading warning sign.) *)
Definition load_laptime_model : option Pipeline * list st_event :=
  match joblib_load "models/laptime_best_model.pkl" with
  | inr model => (Some model, [])
  | inl e => (None, [StError ("Could not load lap time model: " +:+ e)])
  end.

(** [[f"feature_{i}" for i in range(n)]] *)
Definition default_feature_names (n : nat) : list string :=
  map (fun i => "feature_" +:+ pretty i) (seq 0 n).

(** [pd.DataFrame({"feature": ..., "importance": ...}).sort_values(...)];
    the constructor raises when the columns differ in length. *)
Definition imp_df (feature_names : list string) (importances : list Z)
  : pyexn + list (string * Z) :=
  if (length feature_names =? length importances)%nat
  then inr (sort_values (zip feature_names importances))
  else inl (ValueError "All arrays must be of the same length").

Definition top_n : nat := 20.

(** [imp_df.head(top_n).iloc[::-1]] *)
Definition top_imp (df : list (string * Z)) : list (string * Z) :=
  rev (take top_n df).

(** The block under [# Feature importance (LightGBM)]. *)
Definition feature_importance_block (model_pipe : Pipeline)
  : list st_event :=
  match pre_step model_pipe, model_step model_pipe with
  | Some names_out, Some (Some importances) =>
      let feature_names :=
        match names_out with
        | inr names => names
        | inl _ => default_feature_names (length importances)
        end in
      match imp_df feature_names importances with
      | inr df => [StPyplot (top_imp df)]
      | inl (ValueError e) | inl (OtherError e) =>
          [StError ("Error while computing feature importances: " +:+ e)]
      end
  | _, _ =>
      [StWarning ("Could not access `pre` and `model` steps or feature importances. "
                  +:+ "Make sure the saved pipeline has steps named `'pre'` and `'model'`.")]
  end.

(** The body of [with tab6:]; [clicked] is what [st.button] returns and
    [user_kv_text] what the text area holds. *)
Definition tab6 (clicked : bool) (user_kv_text : string)
  : pyexn + list st_event :=
  let '(model_pipe, shown) := load_laptime_model in
  match model_pipe with
  | None =>
      inr ([StShow "Model Performance & Lap Time Prediction"] ++ shown
           ++ [StWarning "Lap time model could not be loaded from `models/laptime_best_model.pkl`.";
               StShow "</div>"])
  | Some pipe =>
      match (if clicked then predict_laptime_btn (predict pipe) user_kv_text
             else inr []) with
      | inl e => inl e
      | inr evs =>
          inr ([StShow "Model Performance & Lap Time Prediction"] ++ shown
               ++ [StShow "Model Comparison Summary";
                   StShow "Top Feature Importances (LightGBM)"]
               ++ feature_importance_block pipe
               ++ [StShow "Predict Lap Time"] ++ evs ++ [StShow "</div>"])
      end
  end.

(** The driver page: [analytics] is what the driver card and tabs 1 to 5
    have shown when [with tab6:] is reached. *)
Definition driver_page (analytics : list st_event) (clicked : bool)
    (user_kv_text : string) : pyexn + list st_event :=
  match tab6 clicked user_kv_text with
  | inl e => inl e
  | inr evs => inr (analytics ++ evs)
  end.

End ModelTab.

(** Rows of equal importance keep the order they have in [rows]. *)
Definition ties_in_original_order (rows ranking : list (string * Z)) : Prop :=
  ∀ v : Z, filter (fun r => r.2 = v) ranking = filter (fun r => r.2 = v) rows.

(** Insertion into a descending list: [r] goes in front of the first row
    [x] with [before r x]. *)
Fixpoint insert_by (before : Z → Z → bool) (r : string * Z)
    (l : list (string * Z)) : list (string * Z) :=
  match l with
  | [] => [r]
  | x :: l' =>
      if before r.2 x.2 then r :: l else x :: insert_by before r l'
  end.

Definition sort_by (before : Z → Z → bool) (rows : list (string * Z))
  : list (string * Z) :=
  foldr (insert_by before) [] rows.

(** The rows are inserted from the last to the first.  A stable
    descending sort: a row goes in front of the later rows of equal
    importance. *)
Definition sort_stable : list (string * Z) → list (string * Z) :=
  sort_by Z.geb.

(** A load that fails. *)
Definition joblib_load_missing (path : string) : string + Pipeline :=
  inl ("[Errno 2] No such file or directory: '" +:+ path +:+ "'").

(** ** What [sort_values] runs with the default [kind]

    [imp_df] is sorted by [DataFrame.sort_values("importance",
    ascending=False)] without a [kind] argument.  pandas then sorts with
    [kind="quicksort"]: [nargsort] reverses the column, calls numpy's
    [argsort(kind="quicksort")] on it and reverses the result.  Neither
    library is part of the sources; the definitions below follow numpy's
    generic index-sorting kernel ([aquicksort] and [aheapsort] of its
    [npysort] directory: median-of-three quicksort on ranges of more than
    17 elements, insertion sort below, heap sort when the depth limit is
    used up) and pandas' [nargsort].  On some processors numpy replaces
    this kernel by a vectorised one, which is not stable either. *)

Module NumpySort.

(** [*p] for a position [p] of the index array [a], and [v[*p]]. *)
Definition get (a : list nat) (p : nat) : nat := List.nth p a 0%nat.
Definition key (v : list Z) (a : list nat) (p : nat) : Z :=
  List.nth (get a p) v 0%Z.

(** [INTP_SWAP] of the entries at positions [p] and [q]. *)
Definition swap (a : list nat) (p q : nat) : list nat :=
  <[q := get a p]> (<[p := get a q]> a).

Definition SMALL_QUICKSORT : nat := 16.

(** [npy_get_msb(num)] *)
Definition npy_get_msb (num : nat) : Z := Z.of_nat (Nat.log2 num).

(** [do { ++pi; } while (v[*pi] < vp);] *)
Fixpoint scan_up (fuel : nat) (v : list Z) (a : list nat) (vp : Z)
    (pi : nat) : nat :=
  match fuel with
  | O => pi
  | S f =>
      if (key v a (S pi) <? vp)%Z then scan_up f v a vp (S pi) else S pi
  end.

(** [do { --pj; } while (vp < v[*pj]);] *)
Fixpoint scan_down (fuel : nat) (v : list Z) (a : list nat) (vp : Z)
    (pj : nat) : nat :=
  match fuel with
  | O => pj
  | S f =>
      if (vp <? key v a (pred pj))%Z then scan_down f v a vp (pred pj)
      else pred pj
  end.

(** The [for (;;)] of the partition: the index array and the final [pi]. *)
Fixpoint partition_loop (fuel : nat) (v : list Z) (a : list nat) (vp : Z)
    (pi pj : nat) : list nat * nat :=
  match fuel with
  | O => (a, pi)
  | S f =>
      let pi := scan_up (length a) v a vp pi in
      let pj := scan_down (length a) v a vp pj in
      if (pj <=? pi)%nat then (a, pi)
      else partition_loop f v (swap a pi pj) vp pi pj
  end.

(** The quicksort partition of the positions [pl..pr]. *)
Definition partition (v : list Z) (a : list nat) (pl pr : nat)
  : list nat * nat :=
  let pm := (pl + (pr - pl) / 2)%nat in
  let a := if (key v a pm <? key v a pl)%Z then swap a pm pl else a in
  let a := if (key v a pr <? key v a pm)%Z then swap a pr pm else a in
  let a := if (key v a pm <? key v a pl)%Z then swap a pm pl else a in
  let vp := key v a pm in
  let pj := (pr - 1)%nat in
  let a := swap a pm pj in
  let '(a, pi) := partition_loop (length a) v a vp pl pj in
  (swap a pi (pr - 1), pi).

(** [while (pj > pl && vp < v[*pk]) { *pj-- = *pk--; }  *pj = vi;] *)
Fixpoint insert_back (fuel : nat) (v : list Z) (a : list nat) (pl vi : nat)
    (vp : Z) (pj : nat) : list nat :=
  match fuel with
  | O => <[pj := vi]> a
  | S f =>
      if (pl <? pj)%nat && (vp <? key v a (pj - 1))%Z
      then insert_back f v (<[pj := get a (pj - 1)]> a) pl vi vp (pj - 1)
      else <[pj := vi]> a
  end.

(** The insertion sort of the positions [pl..pr]. *)
Definition insertion_sort (v : list Z) (a : list nat) (pl pr : nat)
  : list nat :=
  fold_left
    (fun a pi =>
       insert_back (length a) v a pl (get a pi) (List.nth (get a pi) v 0%Z) pi)
    (seq (S pl) (pr - pl)) a.

(** The heap sort indexes its range from 1: heap index [k] is position
    [pl + k - 1]. *)
Definition hpos (pl k : nat) : nat := (pl + k - 1)%nat.

(** The inner loop of the heap sort, followed by [a[i] = tmp]. *)
Fixpoint sift (fuel : nat) (v : list Z) (a : list nat) (pl n tmp i j : nat)
  : list nat :=
  match fuel with
  | O => <[hpos pl i := tmp]> a
  | S f =>
      if (j <=? n)%nat then
        let j :=
          if (j <? n)%nat
             && (key v a (hpos pl j) <? key v a (hpos pl (S j)))%Z
          then S j else j in
        if (List.nth tmp v 0%Z <? key v a (hpos pl j))%Z
        then sift f v (<[hpos pl i := get a (hpos pl j)]> a) pl n tmp j (j + j)
        else <[hpos pl i := tmp]> a
      else <[hpos pl i := tmp]> a
  end.

(** [aheapsort] of the [n] positions from [pl] on. *)
Definition aheapsort (v : list Z) (a : list nat) (pl n : nat) : list nat :=
  let a :=
    fold_left
      (fun a l => sift n v a pl n (get a (hpos pl l)) l (2 * l))
      (rev (seq 1 (n / 2))) a in
  fold_left
    (fun a m =>
       let tmp := get a (hpos pl m) in
       let a := <[hpos pl m := get a (hpos pl 1)]> a in
       sift n v a pl (m - 1) tmp 1 2)
    (rev (seq 2 (n - 1))) a.

(** The sort of the positions [pl..pr] with depth budget [cdepth].  A range
    taken from the stack ([popped]) is heap-sorted when the budget is used
    up; otherwise it is partitioned while it has more than 17 elements,
    the shorter part being continued with and the longer one put on the
    stack, and insertion-sorted at the end. *)
Fixpoint sort_range (fuel : nat) (popped : bool) (v : list Z) (a : list nat)
    (pl pr : nat) (cdepth : Z) : list nat :=
  match fuel with
  | O => a
  | S f =>
      if popped && (cdepth <? 0)%Z then aheapsort v a pl (pr - pl + 1)
      else if (SMALL_QUICKSORT <? pr - pl)%nat then
        let '(a, pi) := partition v a pl pr in
        let cdepth := (cdepth - 1)%Z in
        if (pi - pl <? pr - pi)%nat then
          let a := sort_range f false v a pl (pi - 1) cdepth in
          sort_range f true v a (pi + 1) pr cdepth
        else
          let a := sort_range f false v a (pi + 1) pr cdepth in
          sort_range f true v a pl (pi - 1) cdepth
      else insertion_sort v a pl pr
  end.

(** [v.argsort(kind="quicksort")]: the positions of [v] in ascending order
    of value. *)
Definition aquicksort (v : list Z) : list nat :=
  let num := length v in
  sort_range (S num) true v (seq 0 num) 0 (num - 1) (npy_get_msb num * 2).

End NumpySort.

(** pandas' [nargsort(items, kind="quicksort", ascending=False)] for a
    column without missing values. *)
Definition nargsort_descending (items : list Z) : list nat :=
  let non_nans := rev items in
  let non_nan_idx := rev (seq 0 (length items)) in
  let indexer :=
    map (fun p => List.nth p non_nan_idx 0%nat)
        (NumpySort.aquicksort non_nans) in
  rev indexer.

(** [df.sort_values("importance", ascending=False)]: the rows taken in the
    order of the indexer. *)
Definition pandas_sort_values (rows : list (string * Z)) : list (string * Z) :=
  map (fun i => List.nth i rows (EmptyString, 0%Z))
      (nargsort_descending (map snd rows)).

(** The importances of a pipeline over 40 features, several of them
    equal. *)
Definition sample_feature_names : list string :=
  [ "driver"; "team"; "compound"; "lap_number"; "sector_1_time";
    "sector_2_time"; "sector_3_time"; "position"; "track_status";
    "is_pit_lap"; "air_temp"; "track_temp"; "humidity"; "wind_speed";
    "wind_dir"; "pressure"; "speed_mean"; "speed_max"; "throttle_mean";
    "brake_mean"; "rpm_mean"; "rpm_max"; "drs_activations"; "speed_min";
    "speed_std"; "speed_q1"; "speed_q3"; "speed_range"; "throttle_std";
    "throttle_pct_full"; "brake_std"; "brake_pct_braking"; "rpm_std";
    "gear_changes"; "gear_min"; "drs_active_pct"; "drs_time_seconds";
    "stint"; "tyre_life"; "fresh_tyre" ].

Definition sample_importances : list Z :=
  [ 25; 25; 14; 12; 40; 40; 40; 7; 0; 0; 5; 5; 3; 3; 3; 2; 18; 18; 9; 9;
    6; 6; 1; 4; 4; 4; 4; 8; 2; 2; 2; 2; 3; 7; 1; 1; 5; 14; 14; 0 ]%Z.

(** ** Further inputs *)

(** A text with one pair among blank and pairless lines. *)
Definition one_pair_text : string :=
  "# tyre data" +:+ String "010" ("  " +:+ String "010" " tyre_life = 7 ").

(** A text of white space only. *)
Definition blank_text : string := "  " +:+ String "010" (String "009" " ").

(** ** The driver list ([src/trial/f1 - Copy.py]) *)

(** [Series.unique()]: the values in order of first appearance. *)
Fixpoint unique (values : list string) : list string :=
  match values with
  | [] => []
  | x :: rest => x :: filter (fun y => y ≠ x) (unique rest)
  end.

(** [drivers = session.laps['Driver'].unique().tolist(); drivers.sort()]:
    strings are compared code point by code point. *)
Definition get_drivers_in_session (session : F1.Session) : list string :=
  let drivers := unique (map F1.Driver (F1.laps session)) in
  merge_sort String.le drivers.

Definition sample_session : F1.Session :=
  {| F1.laps :=
       [ {| F1.Driver := "VER"; F1.LapNumber := 1; F1.LapTime := None |};
         {| F1.Driver := "HAM"; F1.LapNumber := 1;
            F1.LapTime := Some 93120000000%Z |};
         {| F1.Driver := "VER"; F1.LapNumber := 2;
            F1.LapTime := Some 92345000000%Z |} ] |}.

(** ** Reading the refresh log *)

(** The lines an item with the given final status prints. *)
Definition lines_of_status (item : Z * string * string * item_status)
  : list log_line :=
  let '(y, g, s, st) := item in
  match st with
  | StatusCached => [Cached y g s]
  | StatusFetched false => [Checking y g s; DataLoaded y g s]
  | StatusFetched true => [Checking y g s; NoLapsData y g s]
  | StatusFailed e => [Checking y g s; FailedFor y g s e]
  end.

(** A provider that is down. *)
Definition provider_down (year : Z) (gp_name session_name : string)
    (w : filesystem) : (string + bool) * filesystem :=
  (inl "connection refused", w).

(** ** A pipeline to try the tab on *)

Definition sample_pipeline : Pipeline :=
  {| pre_step := Some (inl "not fitted");
     model_step := Some (Some [3; 11; 3]%Z);
     predict := fun _ => inr 91.5%float |}.

Definition joblib_load_sample (path : string) : string + Pipeline :=
  inr sample_pipeline.

(** ** The driver race summary of tab 5 ([src/app.py]) *)

Module Summary.

(** A column of the lap table; [None] is a missing value (NaN or NaT). *)
Abbreviation column := (list (option Z)).

(** [Series.diff()] after an element [prev]: the difference to the element
    before, missing when either value is. *)
Fixpoint diff_from (prev : option Z) (col : column) : column :=
  match col with
  | [] => []
  | x :: rest =>
      match x, prev with
      | Some a, Some b => Some (a - b)%Z
      | _, _ => None
      end :: diff_from x rest
  end.

(** [Series.diff()]: the first element has nothing before it. *)
Definition diff (col : column) : column := diff_from None col.

(** [Series.fillna(value)] *)
Definition fillna (value : Z) (col : column) : list Z :=
  map (default value) col.

(** [pos_changes = driver_laps['Position'].diff().fillna(0)] and
    [overtakes = int((pos_changes != 0).sum())] *)
Definition estimated_overtakes (positions : column) : nat :=
  let pos_changes := fillna 0 (diff positions) in
  length (filter (fun x => x ≠ 0%Z) pos_changes).

(** The changes counted in a column that follows an element [prev]. *)
Definition count_from (prev : option Z) (col : column) : nat :=
  length (filter (fun x => x ≠ 0%Z) (fillna 0 (diff_from prev col))).

(** [driver_laps['PitInTime'].notnull().sum()] *)
Definition pit_stops_count (pit_in_time : column) : nat :=
  sum_list (map (fun x => if x is Some _ then 1 else 0) pit_in_time).

(** The rows of [driver_laps[driver_laps['PitInTime'].notnull()]], by lap
    index. *)
Definition pit_stops (pit_in_time : column) : list (nat * Z) :=
  omap (fun '(i, x) => (fun t => (i, t)) <$> x)
       (zip (seq 0 (length pit_in_time)) pit_in_time).

(** Whether two neighbouring laps differ in a known position. *)
Definition changed (a b : option Z) : bool :=
  match a, b with
  | Some x, Some y => negb (x =? y)%Z
  | _, _ => false
  end.

End Summary.
(** ** Facts about the string primitives *)

Lemma substring_whole (s : string) : substring 0 (String.length s) s = s.
Proof. induction s as [|a s IH]; simpl; [done | by rewrite IH]. Qed.

Lemma find_None_contains (c : ascii) (s : string) :
  PyStr.find c s = None ↔ PyStr.contains c s = false.
Proof.
  induction s as [|a s IH]; simpl; [done |].
  destruct (Ascii.eqb a c); [split; discriminate |].
  rewrite <- IH. destruct (PyStr.find c s); simpl; split; congruence.
Qed.

(** Cutting at the first separator is cutting at the position [find]
    returns. *)
Lemma partition_at_find (c : ascii) (s : string) :
  PyStr.partition_at c s =
  match PyStr.find c s with
  | Some i => Some (substring 0 i s, substring (S i) (String.length s - S i) s)
  | None => None
  end.
Proof.
  induction s as [|a s IH]; simpl; [done |].
  destruct (Ascii.eqb a c).
  - by rewrite Nat.sub_0_r, substring_whole.
  - rewrite IH. by destruct (PyStr.find c s).
Qed.

(** The left part has no separator, and the two parts with the separator
    between them are the text. *)
Lemma partition_at_Some (c : ascii) (s l r : string) :
  PyStr.partition_at c s = Some (l, r) →
  s = l +:+ String c r ∧ PyStr.contains c l = false.
Proof.
  revert l. induction s as [|a s IH]; simpl; intros l; [done |].
  destruct (Ascii.eqb_spec a c) as [->|Hne].
  - by intros [= <- <-].
  - destruct (PyStr.partition_at c s) as [[l' r']|]; [|done].
    intros [= <- <-]. destruct (IH l' eq_refl) as [-> Hl]. simpl.
    split; [done |]. by destruct (Ascii.eqb_spec a c).
Qed.

(** Conversely a separator-free prefix is what the cut returns: later
    separators stay in the right part. *)
Lemma partition_at_first (c : ascii) (l r : string) :
  PyStr.contains c l = false →
  PyStr.partition_at c (l +:+ String c r) = Some (l, r).
Proof.
  induction l as [|a l IH]; simpl.
  - intros _. by rewrite Ascii.eqb_refl.
  - destruct (Ascii.eqb a c); [done |]. intros H. by rewrite (IH H).
Qed.

Lemma split_once (c : ascii) (s : string) :
  PyStr.split c 1 s =
  match PyStr.partition_at c s with
  | Some (l, r) => [l; r]
  | None => [s]
  end.
Proof. simpl. by destruct (PyStr.partition_at c s) as [[l r]|]. Qed.

Lemma is_empty_true (s : string) : PyStr.is_empty s = true ↔ s = "".
Proof. by destruct s. Qed.

(** ** Facts about the feature parser *)

(** One round of the loop is the specification's rule; in particular the
    unpacking never raises. *)
Lemma feature_line_entry (d : gmap string pyval) (line : string) :
  feature_line d line = inr (apply_entry d line).
Proof.
  unfold feature_line, apply_entry, line_entry, coerce.
  set (t := PyStr.strip line).
  destruct (PyStr.is_empty t) eqn:He; cbn [orb negb].
  { apply is_empty_true in He. by rewrite He. }
  destruct (PyStr.contains "=" t) eqn:Hc; cbn [orb negb].
  - rewrite split_once, partition_at_find.
    destruct (PyStr.find "=" t) as [i|] eqn:Hf.
    + by destruct (PyFloat.py_float _).
    + apply find_None_contains in Hf. congruence.
  - apply find_None_contains in Hc. by rewrite Hc.
Qed.

Lemma feature_loop_fold (lines : list string) (d : gmap string pyval) :
  feature_loop lines d = inr (fold_left apply_entry lines d).
Proof.
  revert d. induction lines as [|line rest IH]; intros d; simpl; [done |].
  by rewrite feature_line_entry, IH.
Qed.

Lemma line_entry_None (line : string) :
  line_entry line = None ↔
  PyStr.strip line = "" ∨ PyStr.contains "=" (PyStr.strip line) = false.
Proof.
  unfold line_entry. split.
  - destruct (PyStr.find _ _) eqn:Hf; [done |].
    intros _. right. by apply find_None_contains.
  - intros [H|H].
    + by rewrite H.
    + apply find_None_contains in H. by rewrite H.
Qed.

(** The cut is at the first [=]: whatever follows a [=]-free key, further
    [=] included, is the value. *)
Lemma line_entry_first_eq (line k v : string) :
  PyStr.strip line = k +:+ String "=" v →
  PyStr.contains "=" k = false →
  line_entry line = Some (PyStr.strip k, coerce (PyStr.strip v)).
Proof.
  intros Ht Hk. unfold line_entry.
  pose proof (partition_at_first "=" k v Hk) as Hp.
  rewrite <- Ht, partition_at_find in Hp.
  destruct (PyStr.find "=" (PyStr.strip line)); [|done].
  by injection Hp as -> ->.
Qed.

Lemma lookup_apply_entry (d : gmap string pyval) (line k : string) :
  apply_entry d line !! k =
  match last (values_for k [line]) with
  | Some v => Some v
  | None => d !! k
  end.
Proof.
  unfold apply_entry, values_for. simpl.
  destruct (line_entry line) as [[k' v]|]; simpl; [|done].
  destruct (String.eqb_spec k' k) as [->|Hne]; simpl.
  - by rewrite lookup_insert_eq.
  - by rewrite lookup_insert_ne.
Qed.

Lemma lookup_fold_entries (lines : list string) (d : gmap string pyval)
    (k : string) :
  fold_left apply_entry lines d !! k =
  match last (values_for k lines) with
  | Some v => Some v
  | None => d !! k
  end.
Proof.
  revert d. induction lines as [|line rest IH]; intros d; simpl; [done |].
  rewrite IH, lookup_apply_entry. unfold values_for. simpl.
  destruct (line_entry line) as [[k' v]|]; simpl; [|done].
  destruct (String.eqb k' k); simpl; [|done].
  rewrite last_cons. by destruct (last _).
Qed.

Lemma fold_entries_skip (lines : list string) (d : gmap string pyval) :
  (∀ line, line ∈ lines → line_entry line = None) →
  fold_left apply_entry lines d = d.
Proof.
  revert d. induction lines as [|line rest IH]; intros d H; simpl; [done |].
  unfold apply_entry at 2. rewrite (H line) by left.
  apply IH. intros l Hl. apply H. by right.
Qed.

(** The coercion is Python's [float]: decimal numerals with an optional
    fraction, exponent and digit grouping, and the names of the infinities
    and of NaN; anything else stays text. *)
Example coerce_examples :
  map coerce ["12"; "41.5"; "-2.5E-1"; "1_000"; "inf"; "NaN"; "0x10";
              "Red Bull Racing"; ""] =
  [VFloat 12%float; VFloat 41.5%float; VFloat (-0.25)%float;
   VFloat 1000%float; VFloat infinity; VFloat nan; VStr "0x10";
   VStr "Red Bull Racing"; VStr ""].
Proof. vm_compute. reflexivity. Qed.

(** C3: every line is trimmed, skipped when blank or without [=], cut at
    its first [=] only (the value may contain further [=]), and its value is
    coerced to a float with fall-back to the trimmed text: the loop of the
    handler computes, for every sequence of lines, the fold of that rule,
    and never raises.  The lines [driver=VER], [lap_number=12],
    [track_temp=41.5] parse to [{driver: "VER", lap_number: 12.0,
    track_temp: 41.5}]. *)
Theorem feature_parser_rule :
  (∀ lines : list string,
     parse_features lines = inr (fold_left apply_entry lines ∅)) ∧
  line_entry "key=a=b" = Some ("key", VStr "a=b") ∧
  parse_features ["driver=VER"; "lap_number=12"; "track_temp=41.5"] =
    inr {[ "driver" := VStr "VER";
           "lap_number" := VFloat 12%float;
           "track_temp" := VFloat 41.5%float ]}.
Proof.
  split; [|split].
  - intros lines. apply feature_loop_fold.
  - vm_compute. reflexivity.
  - vm_compute. reflexivity.
Qed.

(** C4: with duplicate keys the last occurrence wins: after parsing, a key
    holds the value given by the last line that sets it.  The text
    ["a=1\na=2"] parses to [{a: 2.0}]. *)
Theorem duplicate_keys_last_wins :
  (∀ (lines : list string) (k : string),
     ∃ d, parse_features lines = inr d ∧
          d !! k = last (values_for k lines)) ∧
  parse_features (PyStr.splitlines duplicate_key_text) =
    inr {[ "a" := VFloat 2%float ]}.
Proof.
  split.
  - intros lines k. eexists. split; [apply feature_loop_fold |].
    rewrite lookup_fold_entries, lookup_empty. by destruct (last _).
  - vm_compute. reflexivity.
Qed.

(** C5: a text in which no line holds a [key=value] pair (an empty or
    all-blank text included) makes the handler show a warning and nothing
    else: no feature record is passed on and the model is not called. *)
Theorem empty_feature_set_warns (predict : gmap string pyval → string + float)
    (user_kv_text : string) :
  (∀ line, line ∈ PyStr.splitlines user_kv_text →
           PyStr.contains "=" (PyStr.strip line) = false) →
  (∃ msg, predict_laptime_btn predict user_kv_text = inr [StWarning msg]) ∧
  (∀ out d, predict_laptime_btn predict user_kv_text = inr out →
            ModelPredict d ∉ out).
Proof.
  intros Hno.
  assert (∃ msg, predict_laptime_btn predict user_kv_text = inr [StWarning msg])
    as [msg Hmsg].
  { unfold predict_laptime_btn.
    destruct (PyStr.is_empty _); [by eexists |].
    unfold parse_features. rewrite feature_loop_fold, fold_entries_skip.
    - rewrite map_size_empty. by eexists.
    - intros line Hin. apply line_entry_None. right. by apply Hno. }
  split; [by exists msg |].
  intros out d. rewrite Hmsg. intros [= <-].
  rewrite list_elem_of_singleton. discriminate.
Qed.

Lemma empty_feature_set_warns_witness :
  ∃ msg, predict_laptime_btn (fun _ => inl "unused") no_pair_text
         = inr [StWarning msg].
Proof.
  apply (empty_feature_set_warns (fun _ => inl "unused") no_pair_text).
  intros line Hin. vm_compute in Hin.
  apply list_elem_of_In in Hin. simpl in Hin.
  destruct Hin as [<-|[<-|[]]]; reflexivity.
Defined.

(** C10: a line whose key is empty after trimming is not skipped: it has a
    [=], so it sets the key [""] (to the coerced value).  The line [=5]
    gives [{"": 5.0}] and the line [  = x] gives [{"": "x"}]. *)
Theorem empty_key_line_kept (d : gmap string pyval) (line k v : string) :
  PyStr.strip line = k +:+ String "=" v →
  PyStr.contains "=" k = false →
  PyStr.strip k = "" →
  feature_line d line = inr (<["" := coerce (PyStr.strip v)]> d) ∧
  parse_features ["=5"] = inr {[ "" := VFloat 5%float ]} ∧
  parse_features ["  = x"] = inr {[ "" := VStr "x" ]}.
Proof.
  intros Ht Hk Hempty. split; [|split].
  - rewrite feature_line_entry. unfold apply_entry.
    by rewrite (line_entry_first_eq line k v Ht Hk), Hempty.
  - vm_compute. reflexivity.
  - vm_compute. reflexivity.
Qed.

Lemma empty_key_line_kept_witness :
  feature_line ∅ "  = x" = inr (<["" := coerce (PyStr.strip " x")]> ∅).
Proof.
  apply (empty_key_line_kept ∅ "  = x" "" " x"); reflexivity.
Defined.

(** ** Facts about the cache check and the bulk refresh *)

(** The check looks at the presence of the path and at nothing else. *)
Lemma session_exists_spec (fs : filesystem) (year : Z)
    (gp_name session_name : string) :
  session_exists fs year gp_name session_name = true ↔
  is_Some (fs !! cache_path year gp_name session_name).
Proof. unfold session_exists, path_exists. apply bool_decide_eq_true. Qed.

Lemma session_exists_insert (fs : filesystem) (year : Z)
    (gp_name session_name : string) (node : fs_node) :
  session_exists (<[cache_path year gp_name session_name := node]> fs)
    year gp_name session_name = true.
Proof. apply session_exists_spec. rewrite lookup_insert_eq. by eexists. Qed.

Section BulkRefreshFacts.

Context {World : Type} (disk : World → filesystem).
Context (get_event_schedule : Z → World → (pyexn + list string) * World).
Context (load_session_laps :
           Z → string → string → World → (string + bool) * World).

Local Abbreviation fetch := (fetch_session_data World load_session_laps).
Local Abbreviation sessions_loop :=
  (scan_sessions World disk load_session_laps).
Local Abbreviation events_loop := (scan_events World disk load_session_laps).

(** A fetch prints the check line and one outcome line, whatever the
    provider does. *)
Lemma fetch_session_data_out (year : Z) (gp_name session_name : string)
    (w : World) :
  fetch year gp_name session_name w =
  ([Checking year gp_name session_name;
    match (load_session_laps year gp_name session_name w).1 with
    | inr false => DataLoaded year gp_name session_name
    | inr true => NoLapsData year gp_name session_name
    | inl e => FailedFor year gp_name session_name e
    end],
   (load_session_laps year gp_name session_name w).2).
Proof.
  unfold fetch_session_data.
  destruct (load_session_laps year gp_name session_name w) as [[e|[]] w'];
    reflexivity.
Qed.

Lemma fetch_session_data_status (year : Z) (gp_name session_name : string)
    (w : World) :
  map fst (statuses (fetch year gp_name session_name w).1) =
  [(year, gp_name, session_name)].
Proof.
  rewrite fetch_session_data_out. simpl.
  by destruct (load_session_laps year gp_name session_name w).1 as [e|[]].
Qed.

Lemma scan_sessions_statuses (season : Z) (gp_name : string)
    (sessions : list string) (w : World) :
  map fst (statuses (sessions_loop season gp_name sessions w).1) =
  map (fun session_name => (season, gp_name, session_name)) sessions.
Proof.
  revert w. induction sessions as [|s rest IH]; intros w; simpl; [done |].
  destruct (session_exists (disk w) season gp_name s); simpl.
  - destruct (sessions_loop season gp_name rest w) as [out' w2] eqn:Hr.
    simpl. f_equal. specialize (IH w). by rewrite Hr in IH.
  - pose proof (fetch_session_data_status season gp_name s w) as Hf.
    destruct (fetch season gp_name s w) as [out w1].
    destruct (sessions_loop season gp_name rest w1) as [out' w2] eqn:Hr.
    simpl in *. unfold statuses in *. rewrite omap_app, map_app, Hf.
    simpl. f_equal. specialize (IH w1). by rewrite Hr in IH.
Qed.

Lemma scan_events_statuses (season : Z) (events sessions : list string)
    (w : World) :
  map fst (statuses (events_loop season events sessions w).1) =
  season_items season events sessions.
Proof.
  revert w. induction events as [|gp rest IH]; intros w; simpl; [done |].
  pose proof (scan_sessions_statuses season gp sessions w) as Hs.
  destruct (sessions_loop season gp sessions w) as [out w1].
  destruct (events_loop season rest sessions w1) as [out' w2] eqn:Hr.
  simpl in *. unfold statuses in *. rewrite omap_app, map_app, Hs.
  f_equal. specialize (IH w1). by rewrite Hr in IH.
Qed.

(** The loop over a list of events is the loop over a first part followed
    by the loop over the rest, started in the world the first part left:
    what happened to earlier items reaches later ones through the world
    only. *)
Lemma scan_events_app (season : Z) (events1 events2 sessions : list string)
    (w : World) :
  events_loop season (events1 ++ events2) sessions w =
  let '(out1, w1) := events_loop season events1 sessions w in
  let '(out2, w2) := events_loop season events2 sessions w1 in
  (out1 ++ out2, w2).
Proof.
  revert w. induction events1 as [|gp rest IH]; intros w; simpl.
  - by destruct (events_loop season events2 sessions w).
  - destruct (sessions_loop season gp sessions w) as [out w1].
    rewrite IH.
    destruct (events_loop season rest sessions w1) as [out1 w2].
    destruct (events_loop season events2 sessions w2) as [out2 w3].
    by rewrite app_assoc.
Qed.

End BulkRefreshFacts.

Section BulkRefreshScript.

Context {World : Type} (disk : World → filesystem).
Context (get_event_schedule : Z → World → (pyexn + list string) * World).
Context (load_session_laps :
           Z → string → string → World → (string + bool) * World).

Lemma scan_seasons_statuses (seasons : list Z) (sessions : list string)
    (w : World) :
  map fst (statuses (scan_seasons World disk get_event_schedule
                       load_session_laps seasons sessions w).1.1) =
  refreshed_items World disk get_event_schedule load_session_laps
    seasons sessions w.
Proof.
  revert w. induction seasons as [|season rest IH]; intros w; simpl; [done |].
  destruct (get_event_schedule season w) as [[e|events] w0]; [done |].
  pose proof (scan_events_statuses disk load_session_laps season events
                sessions w0) as He.
  destruct (scan_events World disk load_session_laps season events sessions w0)
    as [out w1].
  specialize (IH w1).
  destruct (scan_seasons World disk get_event_schedule load_session_laps
              rest sessions w1) as [[out' w2] err].
  simpl in *. unfold statuses in *. by rewrite omap_app, map_app, He, IH.
Qed.

End BulkRefreshScript.

(** C1: [session_exists] answers true although nothing is cached: on a disk
    where only the directories of the 2023 Bahrain qualifying exist (no lap
    or telemetry file below them) the check succeeds and the refresh loop
    prints "Cached" for that session without fetching it. *)
Theorem session_exists_without_data :
  session_exists interrupted_fetch 2023 "Bahrain Grand Prix" "Q" = true ∧
  files_under interrupted_fetch (cache_path 2023 "Bahrain Grand Prix" "Q") = [] ∧
  ∀ load_session_laps : Z → string → string → filesystem
                        → (string + bool) * filesystem,
    scan_sessions filesystem id load_session_laps 2023 "Bahrain Grand Prix"
      ["Q"] interrupted_fetch
    = ([Cached 2023 "Bahrain Grand Prix" "Q"], interrupted_fetch).
Proof.
  assert (session_exists interrupted_fetch 2023 "Bahrain Grand Prix" "Q" = true)
    as Hex by (vm_compute; reflexivity).
  split; [exact Hex | split].
  - vm_compute. reflexivity.
  - intros load. simpl. unfold id. by rewrite Hex.
Qed.

(** C6: the bulk refresh handles the items one after the other and each on
    its own.  A fetch that raises is caught and printed as failed; the
    loop over the events of a season prints exactly one final status
    (cached, fetched or failed) for every (season, event, session type)
    item, in order, whatever happened to the items before (with the one
    session type [Q]: exactly one status for every event); and so does the
    whole script for the items of every schedule it obtains. *)
Theorem bulk_refresh_isolates_items (World : Type) (disk : World → filesystem)
    (get_event_schedule : Z → World → (pyexn + list string) * World)
    (load_session_laps :
       Z → string → string → World → (string + bool) * World) :
  (∀ year gp_name session_name w,
     fetch_session_data World load_session_laps year gp_name session_name w =
     ([Checking year gp_name session_name;
       match (load_session_laps year gp_name session_name w).1 with
       | inr false => DataLoaded year gp_name session_name
       | inr true => NoLapsData year gp_name session_name
       | inl e => FailedFor year gp_name session_name e
       end],
      (load_session_laps year gp_name session_name w).2)) ∧
  (∀ season events sessions w,
     map fst (statuses (scan_events World disk load_session_laps
                          season events sessions w).1) =
     season_items season events sessions) ∧
  (∀ season events w,
     map fst (statuses (scan_events World disk load_session_laps
                          season events ["Q"] w).1) =
     map (fun gp_name => (season, gp_name, "Q")) events) ∧
  (∀ w,
     map fst (statuses (bulk_refresh World disk get_event_schedule
                          load_session_laps w).1.1) =
     refreshed_items World disk get_event_schedule load_session_laps
       SEASONS SESSIONS w).
Proof.
  split; [|split; [|split]].
  - apply fetch_session_data_out.
  - apply scan_events_statuses.
  - intros season events w. rewrite scan_events_statuses.
    unfold season_items. induction events as [|gp rest IH]; [done |].
    simpl in *. by f_equal.
  - intros w. unfold bulk_refresh.
    pose proof (scan_seasons_statuses disk get_event_schedule
                  load_session_laps SEASONS SESSIONS w) as Hs.
    destruct (scan_seasons World disk get_event_schedule load_session_laps
                SEASONS SESSIONS w) as [[out w'] [e|]]; simpl in *.
    + exact Hs.
    + unfold statuses in *. rewrite omap_app, map_app, Hs. simpl.
      by rewrite app_nil_r.
Qed.

(** ** Facts about the fastest lap and the telemetry *)

Module F1Facts.
Import F1.

(** The scan keeps a timed lap that is no slower than the laps seen and
    than the one it started with; it ends empty-handed only when it started
    so and saw no timed lap. *)
Lemma fold_faster_spec (ls : list Lap) (best : option Lap) :
  (∀ b, best = Some b → is_Some (LapTime b)) →
  match fold_left faster ls best with
  | None => best = None ∧ ∀ l, l ∈ ls → LapTime l = None
  | Some r =>
      (best = Some r ∨ r ∈ ls) ∧
      ∃ t, LapTime r = Some t ∧
           (∀ l t', l ∈ ls → LapTime l = Some t' → (t <= t')%Z) ∧
           (∀ b tb, best = Some b → LapTime b = Some tb → (t <= tb)%Z)
  end.
Proof.
  revert best. induction ls as [|lap rest IH]; intros best Hbest; simpl.
  - destruct best as [b|].
    + destruct (Hbest b eq_refl) as [t Ht]. split; [by left |].
      exists t. split; [done |]. split.
      * intros l t' Hl. by apply elem_of_nil in Hl.
      * intros b' tb [= <-] Hb. rewrite Ht in Hb. injection Hb as <-. lia.
    + split; [done |]. intros l Hl. by apply elem_of_nil in Hl.
  - assert (∀ b, faster best lap = Some b → is_Some (LapTime b)) as Hnext.
    { intros b. unfold faster. destruct (LapTime lap) as [t|] eqn:Hlap.
      - destruct best as [b0|].
        + destruct (Hbest b0 eq_refl) as [tb Htb]. rewrite Htb.
          destruct (t <? tb)%Z; intros [= <-]; by eexists.
        + intros [= <-]. by eexists.
      - apply Hbest. }
    specialize (IH (faster best lap) Hnext).
    destruct (fold_left faster rest (faster best lap)) as [r|].
    + destruct IH as [Hin (t & Ht & Hrest & Hprev)].
      assert ((∀ t', LapTime lap = Some t' → (t <= t')%Z) ∧
              (∀ b tb, best = Some b → LapTime b = Some tb → (t <= tb)%Z) ∧
              (faster best lap = Some r → best = Some r ∨ r = lap))
        as (Hlap & Hbest' & Hsrc).
      { unfold faster in *. destruct (LapTime lap) as [tl|] eqn:Hl.
        - destruct best as [b0|].
          + destruct (Hbest b0 eq_refl) as [tb Htb]. rewrite Htb in *.
            destruct (Z.ltb_spec tl tb).
            * split; [|split].
              -- intros t' [= <-]. by apply (Hprev lap).
              -- intros b tb' [= <-] Hb. rewrite Htb in Hb.
                 injection Hb as <-. specialize (Hprev lap tl eq_refl Hl). lia.
              -- intros [= <-]. by right.
            * split; [|split].
              -- intros t' [= <-]. specialize (Hprev b0 tb eq_refl Htb). lia.
              -- intros b tb' [= <-] Hb. rewrite Htb in Hb.
                 injection Hb as <-. by apply (Hprev b0).
              -- intros [= <-]. by left.
          + split; [|split].
            * intros t' [= <-]. by apply (Hprev lap).
            * intros b tb [=].
            * intros [= <-]. by right.
        - split; [|split]; [done | exact Hprev | by left]. }
      split.
      * destruct Hin as [Hin|Hin].
        -- destruct (Hsrc Hin) as [?| ->]; [by left | right; by left].
        -- right. by right.
      * exists t. split; [done |]. split; [|exact Hbest'].
        intros l t' Hl Hlt. apply elem_of_cons in Hl as [->|Hl].
        -- by apply Hlap.
        -- by apply (Hrest l).
    + destruct IH as [Hf Hrest]. unfold faster in Hf.
      destruct (LapTime lap) as [tl|] eqn:Hl.
      * destruct best as [b0|]; [|done].
        destruct (Hbest b0 eq_refl) as [tb Htb]. rewrite Htb in Hf.
        by destruct (tl <? tb)%Z.
      * split; [done |]. intros l Hin.
        apply elem_of_cons in Hin as [->|Hin]; [done | by apply Hrest].
Qed.

Lemma step_distance_nonneg (t_prev : Z) (s : Sample) :
  (t_prev <= Time s)%Z → (0 <= step_distance t_prev s)%Q.
Proof.
  intros Ht. unfold step_distance, Qdiv.
  repeat apply Qmult_le_0_compat.
  - change 0%Q with (inject_Z 0). rewrite <- Zle_Qle. lia.
  - apply Qinv_le_0_compat. by vm_compute.
  - change 0%Q with (inject_Z 0). rewrite <- Zle_Qle. lia.
  - apply Qinv_le_0_compat. by vm_compute.
Qed.

Lemma integrate_length (t_prev : Z) (d_prev : Q) (samples : list Sample) :
  map fst (integrate t_prev d_prev samples) = samples.
Proof.
  revert t_prev d_prev. induction samples as [|s rest IH]; intros t d; simpl;
    [done | by rewrite IH].
Qed.

(** From a time not after the first sample on, the integrated distances
    never fall below the distance so far, and never decrease. *)
Lemma integrate_monotone (t_prev : Z) (d_prev : Q) (samples : list Sample) :
  time_ordered samples →
  HdRel (fun a b => (Time a <= Time b)%Z) {| Time := t_prev; Speed := 0 |}
        samples →
  Forall (fun d => (d_prev <= d)%Q) (map snd (integrate t_prev d_prev samples)) ∧
  StronglySorted Qle (map snd (integrate t_prev d_prev samples)).
Proof.
  revert t_prev d_prev.
  induction samples as [|s rest IH]; intros t d Hsorted Hhd; simpl.
  - split; constructor.
  - apply Sorted_inv in Hsorted as [Hrest Hhd'].
    apply HdRel_inv in Hhd. simpl in Hhd.
    pose proof (step_distance_nonneg t s Hhd) as Hstep.
    assert (HdRel (fun a b => (Time a <= Time b)%Z)
              {| Time := Time s; Speed := 0 |} rest) as Hhd''.
    { destruct Hhd' as [|x l Hx]; constructor. exact Hx. }
    destruct (IH (Time s) (d + step_distance t s)%Q Hrest Hhd'') as [Hge Hss].
    assert (d <= d + step_distance t s)%Q as Hd.
    { rewrite <- (Qplus_0_r d) at 1. apply Qplus_le_r. exact Hstep. }
    split.
    + constructor; [exact Hd |].
      eapply Forall_impl; [exact Hge |]. simpl. intros x Hx.
      eapply Qle_trans; [exact Hd | exact Hx].
    + constructor; [exact Hss | exact Hge].
Qed.

End F1Facts.

(** C2: [get_fastest_lap] returns a lap of the given driver that has a
    time, and no timed lap of that driver is faster; when the driver has no
    lap with a time it returns null. *)
Theorem get_fastest_lap_minimum (session : F1.Session) (driver_code : string) :
  match F1.get_fastest_lap session driver_code with
  | Some lap =>
      lap ∈ F1.laps session ∧ F1.Driver lap = driver_code ∧
      ∃ t, F1.LapTime lap = Some t ∧
           ∀ lap' t', lap' ∈ F1.laps session →
                      F1.Driver lap' = driver_code →
                      F1.LapTime lap' = Some t' → (t <= t')%Z
  | None =>
      ∀ lap', lap' ∈ F1.laps session → F1.Driver lap' = driver_code →
              F1.LapTime lap' = None
  end.
Proof.
  unfold F1.get_fastest_lap, F1.pick_fastest, F1.pick_drivers.
  pose proof (F1Facts.fold_faster_spec
                (filter (fun lap => F1.Driver lap = driver_code)
                        (F1.laps session)) None) as H.
  destruct (fold_left F1.faster _ None) as [r|].
  - destruct H as [Hin (t & Ht & Hmin & _)]; [done |].
    destruct Hin as [|Hin]; [done |].
    apply list_elem_of_filter in Hin as [Hd Hin].
    split; [done |]. split; [done |]. exists t. split; [done |].
    intros lap' t' Hin' Hd' Ht'. apply (Hmin lap'); [|done].
    by apply list_elem_of_filter.
  - destruct H as [_ Hall]; [done |].
    intros lap' Hin' Hd'. apply Hall. by apply list_elem_of_filter.
Qed.

(** C8: the telemetry [get_telemetry_data] returns has one entry per raw
    sample, in order (nothing is resampled); its cumulative distance starts
    at 0 and, the samples being in time order, never decreases. *)
Theorem telemetry_distance_monotone (get_car_data : F1.Lap → list F1.Sample)
    (lap : F1.Lap) :
  F1.time_ordered (get_car_data lap) →
  length (F1.get_telemetry_data get_car_data lap) = length (get_car_data lap) ∧
  map fst (F1.get_telemetry_data get_car_data lap) = get_car_data lap ∧
  head (map snd (F1.get_telemetry_data get_car_data lap)) =
    (fun _ => 0%Q) <$> head (get_car_data lap) ∧
  StronglySorted Qle (map snd (F1.get_telemetry_data get_car_data lap)).
Proof.
  intros Hsorted. unfold F1.get_telemetry_data, F1.add_distance.
  destruct (get_car_data lap) as [|s rest].
  - repeat split; constructor.
  - simpl. rewrite F1Facts.integrate_length.
    split; [|split; [done | split; [done |]]].
    + by rewrite <- (F1Facts.integrate_length (F1.Time s) 0%Q rest) at 2;
        rewrite length_map.
    + apply Sorted_inv in Hsorted as [Hrest Hhd].
      destruct (F1Facts.integrate_monotone (F1.Time s) 0%Q rest Hrest)
        as [Hge Hss].
      { destruct Hhd as [|x l Hx]; constructor. exact Hx. }
      by constructor.
Qed.

Lemma telemetry_distance_monotone_witness :
  StronglySorted Qle (map snd (F1.get_telemetry_data sample_car_data sample_lap)).
Proof.
  apply (telemetry_distance_monotone sample_car_data sample_lap).
  unfold F1.time_ordered, sample_car_data.
  repeat constructor. simpl. lia.
Defined.

(** ** Facts about the importance ranking and the model tab *)

Section InsertionSort.

Variable before : Z → Z → bool.
Hypothesis before_ge : ∀ a b, before a b = true → (a >= b)%Z.
Hypothesis not_before_ge : ∀ a b, before a b = false → (b >= a)%Z.

Lemma insert_by_perm (r : string * Z) (l : list (string * Z)) :
  Permutation (insert_by before r l) (r :: l).
Proof.
  induction l as [|x l IH]; simpl; [done |].
  destruct (before r.2 x.2); [done |].
  rewrite IH. apply perm_swap.
Qed.

Lemma insert_by_hd (r x : string * Z) (l : list (string * Z)) :
  (x.2 >= r.2)%Z →
  HdRel (fun a b => (a.2 >= b.2)%Z) x l →
  HdRel (fun a b => (a.2 >= b.2)%Z) x (insert_by before r l).
Proof.
  intros Hx Hl. destruct l as [|y l]; simpl; [by constructor |].
  destruct (before r.2 y.2); constructor; [done |].
  by apply HdRel_inv in Hl.
Qed.

Lemma insert_by_sorted (r : string * Z) (l : list (string * Z)) :
  Sorted (fun a b => (a.2 >= b.2)%Z) l →
  Sorted (fun a b => (a.2 >= b.2)%Z) (insert_by before r l).
Proof using before_ge not_before_ge.
  induction l as [|x l IH]; simpl; intros Hs.
  - by repeat constructor.
  - apply Sorted_inv in Hs as [Hs Hhd].
    destruct (before r.2 x.2) eqn:Hb.
    + constructor; [by constructor |]. constructor. by apply before_ge.
    + constructor; [by apply IH |].
      apply insert_by_hd; [by apply not_before_ge | done].
Qed.

Lemma sort_by_perm (rows : list (string * Z)) :
  Permutation (sort_by before rows) rows.
Proof.
  induction rows as [|r rows IH]; simpl; [done |].
  by rewrite insert_by_perm, IH.
Qed.

Lemma sort_by_sorted (rows : list (string * Z)) :
  Sorted (fun a b => (a.2 >= b.2)%Z) (sort_by before rows).
Proof using before_ge not_before_ge.
  induction rows as [|r rows IH]; simpl; [constructor |].
  by apply insert_by_sorted.
Qed.

End InsertionSort.

(** The stable sort meets what pandas promises for every [kind]. *)
Lemma sort_stable_perm rows : Permutation (sort_stable rows) rows.
Proof. apply sort_by_perm. Qed.

Lemma sort_stable_sorted rows :
  Sorted (fun a b => (a.2 >= b.2)%Z) (sort_stable rows).
Proof. apply sort_by_sorted; intros a b H; lia. Qed.

Lemma descending_strongly (rows : list (string * Z)) :
  Sorted (fun a b => (a.2 >= b.2)%Z) rows →
  StronglySorted (fun a b : string * Z => (a.2 >= b.2)%Z) rows.
Proof.
  apply Sorted.Sorted_StronglySorted. intros a b c ??. lia.
Qed.

Lemma StronglySorted_positions {A} (R : relation A) (l : list A)
    (i j : nat) (a b : A) :
  StronglySorted R l → (i < j)%nat →
  l !! i = Some a → l !! j = Some b → R a b.
Proof.
  intros Hs. revert i j. induction Hs as [|x l Hs IH Hx]; intros i j Hij.
  - by rewrite lookup_nil.
  - destruct j as [|j]; [lia |]. destruct i as [|i]; simpl.
    + intros [= <-] Hb. rewrite Forall_forall in Hx. apply Hx.
      by eapply list_elem_of_lookup_2.
    + apply IH. lia.
Qed.

(** Rows with pairwise different importances are told apart by their
    importance. *)
Lemma distinct_importance_inj (rows : list (string * Z)) (x y : string * Z) :
  NoDup rows.*2 → x ∈ rows → y ∈ rows → x.2 = y.2 → x = y.
Proof.
  induction rows as [|r rows IH]; simpl; [by intros _ ?%elem_of_nil |].
  intros [Hr Hnd]%NoDup_cons [->|Hx]%elem_of_cons [->|Hy]%elem_of_cons Heq.
  - done.
  - exfalso. apply Hr. rewrite Heq. by apply list_elem_of_fmap_2.
  - exfalso. apply Hr. rewrite <- Heq. by apply list_elem_of_fmap_2.
  - by apply IH.
Qed.

Lemma filter_insert_by_geb (v : Z) (r : string * Z) (l : list (string * Z)) :
  filter (fun x => x.2 = v) (insert_by Z.geb r l) =
  filter (fun x => x.2 = v) [r] ++ filter (fun x => x.2 = v) l.
Proof.
  induction l as [|x l IH]; simpl.
  { by rewrite app_nil_r. }
  destruct (Z.geb_spec r.2 x.2) as [Hge|Hlt].
  { rewrite !filter_cons, filter_nil.
    by destruct (decide (r.2 = v)), (decide (x.2 = v)). }
  rewrite (filter_cons _ x), IH, (filter_cons _ x l).
  rewrite (filter_cons _ r), filter_nil.
  destruct (decide (x.2 = v)), (decide (r.2 = v)); simpl; try done; lia.
Qed.

(** The stable ranking keeps the rows of equal importance in their
    original order. *)
Lemma sort_stable_keeps_ties (rows : list (string * Z)) :
  ties_in_original_order rows (sort_stable rows).
Proof.
  intros v. induction rows as [|r rows IH]; [done |].
  change (sort_stable (r :: rows)) with (insert_by Z.geb r (sort_stable rows)).
  rewrite filter_insert_by_geb, IH, (filter_cons _ r rows).
  rewrite (filter_cons _ r), filter_nil. by destruct (decide (r.2 = v)).
Qed.

(** With two rows nothing is partitioned: they keep their order. *)
Example two_equal_rows_keep_order :
  pandas_sort_values [("speed_mean", 7%Z); ("speed_max", 7%Z)]
  = [("speed_mean", 7%Z); ("speed_max", 7%Z)].
Proof. vm_compute. reflexivity. Qed.

(** C7, as stated, fails: for a pipeline over 40 features, several of
    equal importance, the ranking the default [kind] gives does not keep
    the features of equal importance in their original order (it is
    sorted descending all the same). *)
Lemma importance_ties_reordered :
  imp_df pandas_sort_values sample_feature_names sample_importances
    = inr (pandas_sort_values (zip sample_feature_names sample_importances)) ∧
  Sorted (fun a b => (a.2 >= b.2)%Z)
    (pandas_sort_values (zip sample_feature_names sample_importances)) ∧
  ¬ ties_in_original_order
      (zip sample_feature_names sample_importances)
      (pandas_sort_values (zip sample_feature_names sample_importances)).
Proof.
  split; [reflexivity | split].
  - apply (bool_decide_unpack _). vm_compute. reflexivity.
  - intros H. specialize (H 18%Z). vm_compute in H. discriminate H.
Qed.

(** C7 (amended): the ranking is in descending order of importance and
    carries the importance column of the stable ranking; every group of
    features of equal importance holds the features it held, in some
    order; and when no two features have the same importance the ranking
    is the stable one.  Only the order inside a group of equal importance
    is left open. *)
Theorem importance_ranking_descending
    (sort_values : list (string * Z) → list (string * Z))
    (sort_values_perm : ∀ rows, Permutation (sort_values rows) rows)
    (sort_values_sorted :
       ∀ rows, Sorted (fun a b => (a.2 >= b.2)%Z) (sort_values rows))
    (feature_names : list string) (importances : list Z)
    (df : list (string * Z)) :
  imp_df sort_values feature_names importances = inr df →
  (∀ i j a b, (i < j)%nat → df !! i = Some a → df !! j = Some b →
              (a.2 >= b.2)%Z) ∧
  df.*2 = (sort_stable (zip feature_names importances)).*2 ∧
  (∀ v, filter (fun r => r.2 = v) df
        ≡ₚ filter (fun r => r.2 = v) (zip feature_names importances)) ∧
  (NoDup importances → df = sort_stable (zip feature_names importances)).
Proof.
  unfold imp_df. destruct (Nat.eqb_spec (length feature_names)
                                        (length importances)) as [Hlen|];
    [|discriminate].
  intros [= <-].
  set (rows := zip feature_names importances).
  pose proof (descending_strongly _ (sort_values_sorted rows)) as Hdf.
  pose proof (descending_strongly _ (sort_stable_sorted rows)) as Hst.
  assert (sort_values rows ≡ₚ sort_stable rows) as Hperm.
  { by rewrite sort_values_perm, sort_stable_perm. }
  split; [|split; [|split]].
  - intros i j a b Hij Ha Hb.
    by apply (StronglySorted_positions _ _ i j a b Hdf).
  - apply (StronglySorted_unique_strong Z.ge).
    + intros x1 x2 _ _ ??. lia.
    + by apply (StronglySorted_fmap snd (fun a b : string * Z => (a.2 >= b.2)%Z)).
    + by apply (StronglySorted_fmap snd (fun a b : string * Z => (a.2 >= b.2)%Z)).
    + by rewrite Hperm.
  - intros v. by rewrite sort_values_perm.
  - intros Hnd.
    apply (StronglySorted_unique_strong
             (fun a b : string * Z => (a.2 >= b.2)%Z)); [|done..].
    intros x1 x2 Hx1 Hx2 H12 H21.
    apply (distinct_importance_inj rows).
    + unfold rows. rewrite snd_zip; [done | lia].
    + by rewrite <- (sort_values_perm rows).
    + by rewrite <- (sort_stable_perm rows).
    + lia.
Qed.

Lemma importance_ranking_descending_witness :
  [("sector_1_time", 9%Z); ("speed_mean", 7%Z); ("speed_max", 7%Z)].*2 =
  (sort_stable (zip ["speed_mean"; "sector_1_time"; "speed_max"]
                    [7; 9; 7]%Z)).*2.
Proof.
  apply (importance_ranking_descending sort_stable sort_stable_perm
           sort_stable_sorted ["speed_mean"; "sector_1_time"; "speed_max"]
           [7; 9; 7]%Z
           [("sector_1_time", 9%Z); ("speed_mean", 7%Z); ("speed_max", 7%Z)]).
  reflexivity.
Defined.

(** C9: when loading the pipeline fails, [load_laptime_model] reports the
    error and returns no model; tab 6 then shows a warning and nothing of
    the prediction feature (whatever the button and the text area hold),
    and the page keeps everything the other tabs have shown and raises
    nothing. *)
Theorem model_load_failure_not_fatal
    (joblib_load : string → string + Pipeline)
    (sort_values : list (string * Z) → list (string * Z))
    (e : string) (analytics : list st_event) (clicked : bool)
    (user_kv_text : string) :
  joblib_load "models/laptime_best_model.pkl" = inl e →
  load_laptime_model joblib_load =
    (None, [StError ("Could not load lap time model: " +:+ e)]) ∧
  tab6 joblib_load sort_values clicked user_kv_text =
    inr [StShow "Model Performance & Lap Time Prediction";
         StError ("Could not load lap time model: " +:+ e);
         StWarning "Lap time model could not be loaded from `models/laptime_best_model.pkl`.";
         StShow "</div>"] ∧
  driver_page joblib_load sort_values analytics clicked user_kv_text =
    inr (analytics ++
         [StShow "Model Performance & Lap Time Prediction";
          StError ("Could not load lap time model: " +:+ e);
          StWarning "Lap time model could not be loaded from `models/laptime_best_model.pkl`.";
          StShow "</div>"]).
Proof.
  intros Hload.
  assert (load_laptime_model joblib_load =
            (None, [StError ("Could not load lap time model: " +:+ e)])) as Hl.
  { unfold load_laptime_model. by rewrite Hload. }
  assert (tab6 joblib_load sort_values clicked user_kv_text =
            inr [StShow "Model Performance & Lap Time Prediction";
                 StError ("Could not load lap time model: " +:+ e);
                 StWarning "Lap time model could not be loaded from `models/laptime_best_model.pkl`.";
                 StShow "</div>"]) as Ht.
  { unfold tab6. by rewrite Hl. }
  split; [exact Hl | split; [exact Ht |]].
  unfold driver_page. by rewrite Ht.
Qed.

Lemma model_load_failure_not_fatal_witness :
  ∃ shown, load_laptime_model joblib_load_missing = (None, shown).
Proof.
  eexists.
  apply (model_load_failure_not_fatal joblib_load_missing sort_stable
           "[Errno 2] No such file or directory: 'models/laptime_best_model.pkl'"
           [] true "driver=VER").
  reflexivity.
Defined.

(** ** More facts about the string primitives *)

Lemma lstrip_idemp (s : string) : PyStr.lstrip (PyStr.lstrip s) = PyStr.lstrip s.
Proof.
  induction s as [|c s IH]; simpl; [done |].
  destruct (PyStr.isspace c) eqn:Hc; [done |]. simpl. by rewrite Hc.
Qed.

Lemma rstrip_idemp (s : string) : PyStr.rstrip (PyStr.rstrip s) = PyStr.rstrip s.
Proof.
  induction s as [|c s IH]; simpl; [done |].
  destruct (PyStr.rstrip s) as [|a r] eqn:Hr.
  - destruct (PyStr.isspace c) eqn:Hc; simpl; [done | by rewrite Hc].
  - change (PyStr.rstrip (String c (String a r))) with
      (match PyStr.rstrip (String a r) with
       | EmptyString =>
           if PyStr.isspace c then EmptyString else String c EmptyString
       | r' => String c r'
       end).
    by rewrite IH.
Qed.

(** A text that starts with no white space keeps its start when its end is
    trimmed. *)
Lemma lstrip_rstrip_fix (s : string) :
  PyStr.lstrip s = s → PyStr.lstrip (PyStr.rstrip s) = PyStr.rstrip s.
Proof.
  destruct s as [|c s]; [done |]. simpl.
  destruct (PyStr.isspace c) eqn:Hc.
  - intros H. exfalso.
    assert (∀ t, (String.length (PyStr.lstrip t) <= String.length t)%nat) as Hlen.
    { induction t as [|a t IH]; simpl; [lia |].
      destruct (PyStr.isspace a); simpl; lia. }
    specialize (Hlen s). rewrite H in Hlen. simpl in Hlen. lia.
  - intros _. destruct (PyStr.rstrip s); simpl; by rewrite Hc.
Qed.

(** Trimming twice is trimming once. *)
Lemma strip_idemp (s : string) : PyStr.strip (PyStr.strip s) = PyStr.strip s.
Proof.
  unfold PyStr.strip.
  rewrite (lstrip_rstrip_fix (PyStr.lstrip s) (lstrip_idemp s)).
  apply rstrip_idemp.
Qed.

Lemma contains_lstrip (c : ascii) (s : string) :
  PyStr.contains c (PyStr.lstrip s) = true → PyStr.contains c s = true.
Proof.
  induction s as [|a s IH]; simpl; [done |].
  destruct (PyStr.isspace a); simpl; [|done].
  intros H. rewrite (IH H). by destruct (Ascii.eqb a c).
Qed.

Lemma contains_rstrip (c : ascii) (s : string) :
  PyStr.contains c (PyStr.rstrip s) = true → PyStr.contains c s = true.
Proof.
  induction s as [|a s IH]; simpl; [done |].
  destruct (PyStr.rstrip s) as [|b r].
  - destruct (PyStr.isspace a); simpl; [done |].
    by destruct (Ascii.eqb a c).
  - simpl in *. destruct (Ascii.eqb a c); [done |]. exact IH.
Qed.

(** Trimming adds no character. *)
Lemma contains_strip (c : ascii) (s : string) :
  PyStr.contains c (PyStr.strip s) = true → PyStr.contains c s = true.
Proof.
  unfold PyStr.strip. intros H.
  by apply contains_lstrip, contains_rstrip.
Qed.

(** A text holding a character that is not white space does not trim to
    the empty text. *)
Lemma strip_nonempty (c : ascii) (s : string) :
  PyStr.contains c s = true → PyStr.isspace c = false →
  PyStr.is_empty (PyStr.strip s) = false.
Proof.
  intros Hc Hsp. unfold PyStr.strip.
  assert (PyStr.contains c (PyStr.lstrip s) = true) as Hl.
  { induction s as [|a s IH]; simpl in *; [done |].
    destruct (Ascii.eqb_spec a c) as [->|Hne].
    - rewrite Hsp. simpl. by rewrite Ascii.eqb_refl.
    - destruct (PyStr.isspace a); [by apply IH |].
      simpl. by destruct (Ascii.eqb_spec a c). }
  clear Hc. revert Hl. generalize (PyStr.lstrip s). intros t.
  induction t as [|a t IH]; simpl; [done |].
  destruct (Ascii.eqb_spec a c) as [->|Hne].
  - intros _. rewrite Hsp. by destruct (PyStr.rstrip t).
  - intros H. specialize (IH H). by destruct (PyStr.rstrip t).
Qed.

Lemma contains_app (c : ascii) (s t : string) :
  PyStr.contains c (s +:+ t) = PyStr.contains c s || PyStr.contains c t.
Proof.
  induction s as [|a s IH]; simpl; [done |].
  by destruct (Ascii.eqb a c).
Qed.

Lemma contains_cons (c a : ascii) (s : string) :
  PyStr.contains c s = true → PyStr.contains c (String a s) = true.
Proof. simpl. intros ->. by destruct (Ascii.eqb a c). Qed.

(** The lines hold characters of the text only. *)
Lemma contains_splitlines_from (c : ascii) (cur s line : string) :
  line ∈ PyStr.splitlines_from cur s →
  PyStr.contains c line = true →
  PyStr.contains c cur = true ∨ PyStr.contains c s = true.
Proof.
  remember (String.length s) as n eqn:Hn.
  assert (String.length s <= n)%nat as Hle by lia. clear Hn.
  revert s cur Hle. induction n as [|n IH]; intros s cur Hle.
  - destruct s; [|simpl in Hle; lia]. simpl.
    destruct (PyStr.is_empty cur); [by intros ?%elem_of_nil |].
    intros ->%list_elem_of_singleton. by left.
  - destruct s as [|a s].
    { simpl. destruct (PyStr.is_empty cur); [by intros ?%elem_of_nil |].
      intros ->%list_elem_of_singleton. by left. }
    simpl in Hle.
    change (PyStr.splitlines_from cur (String a s)) with
      (if PyStr.islinebreak a then
         cur :: match s with
                | String c' s'' =>
                    if ((PyStr.ord a =? 13)%N && (PyStr.ord c' =? 10)%N)
                    then PyStr.splitlines_from EmptyString s''
                    else PyStr.splitlines_from EmptyString s
                | EmptyString => PyStr.splitlines_from EmptyString s
                end
       else PyStr.splitlines_from (cur +:+ String a EmptyString) s).
    destruct (PyStr.islinebreak a).
    + intros [->|Hin]%elem_of_cons; [by left |].
      intros Hc. right. apply contains_cons.
      destruct s as [|b s'].
      * by apply elem_of_nil in Hin.
      * destruct ((PyStr.ord a =? 13)%N && (PyStr.ord b =? 10)%N).
        -- apply contains_cons.
           destruct (IH s' "" ltac:(simpl in Hle; lia) Hin Hc); done.
        -- destruct (IH (String b s') "" ltac:(lia) Hin Hc); done.
    + intros Hin Hc. destruct (IH s _ ltac:(lia) Hin Hc) as [H|H].
      * rewrite contains_app in H. apply orb_true_iff in H as [H|H];
          [by left |]. right. simpl in H. simpl.
        by destruct (Ascii.eqb a c).
      * right. by apply contains_cons.
Qed.

Lemma contains_splitlines (c : ascii) (s line : string) :
  line ∈ PyStr.splitlines s → PyStr.contains c line = true →
  PyStr.contains c s = true.
Proof.
  intros Hin Hc.
  by destruct (contains_splitlines_from c "" s line Hin Hc).
Qed.

(** ** More on the feature parser and its handler *)

(** What a line that sets a key looks like. *)
Lemma line_entry_Some (line k : string) (v : pyval) :
  line_entry line = Some (k, v) →
  ∃ key val, PyStr.strip line = key +:+ String "=" val ∧
             PyStr.contains "=" key = false ∧
             k = PyStr.strip key ∧ v = coerce (PyStr.strip val).
Proof.
  unfold line_entry.
  pose proof (partition_at_find "=" (PyStr.strip line)) as Hp.
  destruct (PyStr.find "=" (PyStr.strip line)) as [i|]; [|done].
  intros [= <- <-].
  apply partition_at_Some in Hp as [Ht Hk].
  eexists _, _. split; [exact Ht |]. by split.
Qed.

Lemma values_for_elem (lines : list string) (k : string) (v : pyval) :
  v ∈ values_for k lines ↔
  ∃ line, line ∈ lines ∧ line_entry line = Some (k, v).
Proof.
  unfold values_for. rewrite list_elem_of_omap. split.
  - intros (line & Hin & H). exists line. split; [done |].
    destruct (line_entry line) as [[k' v']|]; [|done].
    destruct (String.eqb_spec k' k) as [->|]; [|done]. by injection H as ->.
  - intros (line & Hin & H). exists line. split; [done |].
    by rewrite H, String.eqb_refl.
Qed.

(** A key of the record was set by some line, to the value it holds. *)
Lemma lookup_parsed (lines : list string) (k : string) (v : pyval) :
  fold_left apply_entry lines ∅ !! k = Some v →
  ∃ line, line ∈ lines ∧ line_entry line = Some (k, v).
Proof.
  rewrite lookup_fold_entries, lookup_empty.
  destruct (last (values_for k lines)) as [v'|] eqn:Hl; [|done].
  intros [= ->]. apply values_for_elem. by apply last_Some_elem_of.
Qed.

(** A line that sets a key leaves the record non-empty. *)
Lemma fold_entries_nonempty (lines : list string) (line : string) :
  line ∈ lines → PyStr.contains "=" (PyStr.strip line) = true →
  fold_left apply_entry lines ∅ ≠ ∅.
Proof.
  intros Hin Hc.
  destruct (line_entry line) as [[k v]|] eqn:He.
  - intros Hempty.
    assert (v ∈ values_for k lines) as Hv by (apply values_for_elem; eauto).
    pose proof (lookup_fold_entries lines ∅ k) as Hl.
    rewrite Hempty, lookup_empty in Hl.
    destruct (last (values_for k lines)) eqn:Hlast; [done |].
    apply last_None in Hlast. rewrite Hlast in Hv. by apply elem_of_nil in Hv.
  - apply line_entry_None in He as [He|He]; [|congruence].
    rewrite He in Hc. discriminate.
Qed.

(** X1: as soon as one line of the text holds a [=] after trimming, the
    handler parses a non-empty record, shows it and calls the model on
    exactly that record, once; it then shows the prediction, or the error
    and a hint. *)
Theorem prediction_attempted_with_pairs
    (predict : gmap string pyval → string + float)
    (user_kv_text line : string) :
  line ∈ PyStr.splitlines user_kv_text →
  PyStr.contains "=" (PyStr.strip line) = true →
  ∃ d shown,
    parse_features (PyStr.splitlines user_kv_text) = inr d ∧ d ≠ ∅ ∧
    predict_laptime_btn predict user_kv_text =
      inr (StWrite "Parsed features sent to the model:"
           :: StDataframe d :: ModelPredict d :: shown) ∧
    match predict d with
    | inr y_pred => shown = [StSuccess y_pred]
    | inl e => ∃ msg hint, shown = [StError msg; StInfo hint]
    end.
Proof.
  intros Hin Hc.
  pose proof (fold_entries_nonempty _ _ Hin Hc) as Hne.
  exists (fold_left apply_entry (PyStr.splitlines user_kv_text) ∅).
  unfold predict_laptime_btn, parse_features.
  rewrite feature_loop_fold.
  assert (PyStr.is_empty (PyStr.strip user_kv_text) = false) as ->.
  { apply (strip_nonempty "="); [|done].
    eapply contains_splitlines; [exact Hin |]. by apply contains_strip. }
  destruct (Nat.eqb_spec (size (fold_left apply_entry
                                  (PyStr.splitlines user_kv_text) ∅)) 0)
    as [Hz|_].
  { by apply map_size_empty_iff in Hz. }
  eexists. split; [done |]. split; [done |]. split; [reflexivity |].
  destruct (predict _); [by eexists _, _ | done].
Qed.

Lemma prediction_attempted_with_pairs_witness :
  ∃ d shown,
    parse_features (PyStr.splitlines one_pair_text) = inr d ∧ d ≠ ∅ ∧
    predict_laptime_btn (fun _ => inr 91.5%float) one_pair_text =
      inr (StWrite "Parsed features sent to the model:"
           :: StDataframe d :: ModelPredict d :: shown) ∧
    match (fun _ : gmap string pyval => @inr string float 91.5%float) d with
    | inr y_pred => shown = [StSuccess y_pred]
    | inl e => ∃ msg hint, shown = [StError msg; StInfo hint]
    end.
Proof.
  apply (prediction_attempted_with_pairs (fun _ => inr 91.5%float)
           one_pair_text " tyre_life = 7 ").
  - vm_compute. do 2 right. left.
  - reflexivity.
Defined.

(** X2: the first guard of the handler hides nothing: a text that trims to
    the empty text has no line with a pair, so the loop would leave the
    record empty as well. *)
Theorem blank_text_has_no_pairs (user_kv_text : string) :
  PyStr.strip user_kv_text = "" →
  parse_features (PyStr.splitlines user_kv_text) = inr ∅.
Proof.
  intros Hblank. unfold parse_features.
  rewrite feature_loop_fold, fold_entries_skip; [done |].
  intros line Hin. apply line_entry_None. right.
  destruct (PyStr.contains "=" (PyStr.strip line)) eqn:Hc; [|done].
  assert (PyStr.is_empty (PyStr.strip user_kv_text) = false) as He.
  { apply (strip_nonempty "="); [|done].
    eapply contains_splitlines; [exact Hin |]. by apply contains_strip. }
  by rewrite Hblank in He.
Qed.

Lemma blank_text_has_no_pairs_witness :
  parse_features (PyStr.splitlines blank_text) = inr ∅.
Proof. apply (blank_text_has_no_pairs blank_text). reflexivity. Defined.

(** X3: the parsed record is normalised: every key is trimmed and free of
    [=], and a value kept as text is trimmed and is not something [float]
    accepts. *)
Theorem parsed_record_normalised (lines : list string)
    (d : gmap string pyval) (k : string) (v : pyval) :
  parse_features lines = inr d →
  d !! k = Some v →
  PyStr.strip k = k ∧ PyStr.contains "=" k = false ∧
  match v with
  | VStr val => PyStr.strip val = val ∧ PyFloat.py_float val = None
  | VFloat _ => True
  end.
Proof.
  unfold parse_features. rewrite feature_loop_fold. intros [= <-] Hk.
  apply lookup_parsed in Hk as (line & _ & He).
  apply line_entry_Some in He as (key & val & _ & Hkey & -> & ->).
  split; [apply strip_idemp |]. split.
  - destruct (PyStr.contains "=" (PyStr.strip key)) eqn:Hc; [|done].
    apply contains_strip in Hc. congruence.
  - unfold coerce. destruct (PyFloat.py_float (PyStr.strip val)) eqn:Hf;
      [done |]. split; [apply strip_idemp | done].
Qed.

Lemma parsed_record_normalised_witness :
  PyStr.strip "team" = "team" ∧ PyStr.contains "=" "team" = false ∧
  PyStr.strip "Red Bull" = "Red Bull" ∧ PyFloat.py_float "Red Bull" = None.
Proof.
  apply (parsed_record_normalised ["  team =  Red Bull "] _ "team"
           (VStr "Red Bull") eq_refl).
  vm_compute. reflexivity.
Defined.

(** X4: lines without a [=] (blank lines, remarks) may stand anywhere in
    the text: dropping them does not change the parsed record. *)
Theorem pairless_lines_ignored (before junk after : list string) :
  (∀ line, line ∈ junk → PyStr.contains "=" (PyStr.strip line) = false) →
  parse_features (before ++ junk ++ after) = parse_features (before ++ after).
Proof.
  intros Hjunk. unfold parse_features.
  rewrite !feature_loop_fold, !fold_left_app. do 2 f_equal.
  apply fold_entries_skip. intros line Hin.
  apply line_entry_None. right. by apply Hjunk.
Qed.

Lemma pairless_lines_ignored_witness :
  parse_features (["driver=VER"] ++ [""; "# weather"] ++ ["air_temp=28.0"]) =
  parse_features (["driver=VER"] ++ ["air_temp=28.0"]).
Proof.
  apply (pairless_lines_ignored ["driver=VER"] [""; "# weather"]
           ["air_temp=28.0"]).
  intros line Hin. apply list_elem_of_In in Hin. simpl in Hin.
  destruct Hin as [<-|[<-|[]]]; reflexivity.
Defined.

Lemma values_for_absent (lines : list string) (k : string) :
  k ∉ (omap line_entry lines).*1 → values_for k lines = [].
Proof.
  intros Hk. destruct (values_for k lines) as [|v l] eqn:Hv; [done |].
  exfalso. apply Hk.
  assert (v ∈ values_for k lines) as Hin by (rewrite Hv; left).
  apply values_for_elem in Hin as (line & Hin & He).
  apply list_elem_of_fmap. exists (k, v). split; [done |].
  apply list_elem_of_omap. eauto.
Qed.

Lemma values_for_distinct (lines : list string) (k : string) :
  NoDup (omap line_entry lines).*1 → (length (values_for k lines) <= 1)%nat.
Proof.
  induction lines as [|line rest IH]; simpl; [lia |].
  unfold values_for in *. simpl.
  destruct (line_entry line) as [[k' v]|]; simpl; [|exact IH].
  intros [Hk Hnd]%NoDup_cons. destruct (String.eqb_spec k' k) as [->|].
  - pose proof (values_for_absent rest k Hk) as Hnil.
    unfold values_for in Hnil. rewrite Hnil. simpl. lia.
  - by apply IH.
Qed.

(** X5: when no two lines set the same key, the order of the lines does
    not matter: any rearrangement parses to the same record. *)
Theorem distinct_keys_order_irrelevant (lines lines' : list string) :
  NoDup (omap line_entry lines).*1 →
  lines ≡ₚ lines' →
  parse_features lines = parse_features lines'.
Proof.
  intros Hnd Hperm. unfold parse_features. rewrite !feature_loop_fold.
  f_equal. apply map_eq. intros k. rewrite !lookup_fold_entries.
  assert (values_for k lines ≡ₚ values_for k lines') as Hp.
  { unfold values_for. by rewrite Hperm. }
  pose proof (values_for_distinct lines k Hnd) as Hlen.
  destruct (values_for k lines) as [|v [|v' l]]; simpl in Hlen; [| |lia].
  - by apply Permutation_nil_l in Hp as <-.
  - by apply Permutation_singleton_l in Hp as <-.
Qed.

Lemma distinct_keys_order_irrelevant_witness :
  parse_features ["driver=VER"; "stint=2"] =
  parse_features ["stint=2"; "driver=VER"].
Proof.
  apply (distinct_keys_order_irrelevant ["driver=VER"; "stint=2"]
           ["stint=2"; "driver=VER"]).
  - vm_compute. apply NoDup_cons. split; [|apply NoDup_singleton].
    intros Hin%list_elem_of_singleton. discriminate Hin.
  - apply perm_swap.
Defined.

(** ** More on the bulk refresh *)

Section RefreshLog.

Context {World : Type} (disk : World → filesystem).
Context (get_event_schedule : Z → World → (pyexn + list string) * World).
Context (load_session_laps :
           Z → string → string → World → (string + bool) * World).

Lemma statuses_app (out out' : list log_line) :
  statuses (out ++ out') = statuses out ++ statuses out'.
Proof. apply omap_app. Qed.

Lemma scan_sessions_log (season : Z) (gp_name : string)
    (sessions : list string) (w : World) :
  (scan_sessions World disk load_session_laps season gp_name sessions w).1 =
  flat_map lines_of_status
    (statuses (scan_sessions World disk load_session_laps
                 season gp_name sessions w).1).
Proof.
  revert w. induction sessions as [|s rest IH]; intros w; simpl; [done |].
  destruct (session_exists (disk w) season gp_name s); simpl.
  - specialize (IH w).
    destruct (scan_sessions World disk load_session_laps season gp_name rest w)
      as [out' w2]. simpl in *. by f_equal.
  - rewrite fetch_session_data_out.
    specialize (IH (load_session_laps season gp_name s w).2).
    destruct (scan_sessions World disk load_session_laps season gp_name rest
                (load_session_laps season gp_name s w).2) as [out' w2].
    simpl in *.
    destruct (load_session_laps season gp_name s w).1 as [e|[]]; simpl;
      by do 2 f_equal.
Qed.

Lemma scan_sessions_cached (season : Z) (gp_name : string)
    (sessions : list string) (w : World) :
  (∀ s, s ∈ sessions → session_exists (disk w) season gp_name s = true) →
  scan_sessions World disk load_session_laps season gp_name sessions w =
  (map (fun s => Cached season gp_name s) sessions, w).
Proof.
  induction sessions as [|s rest IH]; intros Hall; simpl; [done |].
  rewrite (Hall s) by left. simpl.
  rewrite IH; [done |]. intros s' Hs'. apply Hall. by right.
Qed.

(** X6: a season whose items are all on disk is refreshed without a single
    fetch: the loop prints "Cached" for every item, in order, and leaves
    the world as it found it. *)
Theorem cached_season_fetches_nothing (season : Z)
    (events sessions : list string) (w : World) :
  (∀ gp_name s, gp_name ∈ events → s ∈ sessions →
                session_exists (disk w) season gp_name s = true) →
  scan_events World disk load_session_laps season events sessions w =
  (map (fun '(y, g, s) => Cached y g s)
       (season_items season events sessions), w).
Proof.
  induction events as [|gp rest IH]; intros Hall; simpl; [done |].
  rewrite scan_sessions_cached by (intros s Hs; apply Hall; [left | done]).
  rewrite IH by (intros g s Hg Hs; apply Hall; [by right | done]).
  by rewrite map_app, map_map.
Qed.

(** X7: the log of a season can be read back from its final statuses: an
    item found on disk prints its "Cached" line only, and every other item
    prints its "Checking" line directly followed by its outcome. *)
Theorem refresh_log_structure (season : Z) (events sessions : list string)
    (w : World) :
  (scan_events World disk load_session_laps season events sessions w).1 =
  flat_map lines_of_status
    (statuses (scan_events World disk load_session_laps
                 season events sessions w).1).
Proof.
  revert w. induction events as [|gp rest IH]; intros w; simpl; [done |].
  pose proof (scan_sessions_log season gp sessions w) as Hs.
  destruct (scan_sessions World disk load_session_laps season gp sessions w)
    as [out w1].
  specialize (IH w1).
  destruct (scan_events World disk load_session_laps season rest sessions w1)
    as [out' w2].
  simpl in *. rewrite statuses_app, flat_map_app. by rewrite <- Hs, <- IH.
Qed.

Lemma scan_seasons_no_final_line (seasons : list Z) (sessions : list string)
    (w : World) :
  AllSessionsChecked ∉
    (scan_seasons World disk get_event_schedule load_session_laps
       seasons sessions w).1.1.
Proof.
  revert w. induction seasons as [|season rest IH]; intros w; simpl.
  - apply not_elem_of_nil.
  - destruct (get_event_schedule season w) as [[e|events] w0]; simpl.
    { apply not_elem_of_nil. }
    pose proof (refresh_log_structure season events sessions w0) as Hlog.
    destruct (scan_events World disk load_session_laps season events
                sessions w0) as [out w1].
    specialize (IH w1).
    destruct (scan_seasons World disk get_event_schedule load_session_laps
                rest sessions w1) as [[out' w2] err].
    simpl in *. rewrite not_elem_of_app. split; [|done].
    rewrite Hlog. intros Hin. apply list_elem_of_In, in_flat_map in Hin
      as ([[[y g] s] st] & _ & Hin).
    apply list_elem_of_In in Hin.
    destruct st as [|[]|e]; simpl in Hin;
      repeat (apply elem_of_cons in Hin as [Hin|Hin]; [discriminate |]);
      by apply elem_of_nil in Hin.
Qed.

(** X8: the closing line "All sessions checked" is printed, last, exactly
    when the script runs to its end; when a schedule cannot be fetched the
    script ends with that exception and the line is missing. *)
Theorem all_checked_iff_finished (w : World) :
  match (bulk_refresh World disk get_event_schedule load_session_laps w).2 with
  | None =>
      last (bulk_refresh World disk get_event_schedule
              load_session_laps w).1.1 = Some AllSessionsChecked
  | Some _ =>
      AllSessionsChecked ∉
        (bulk_refresh World disk get_event_schedule load_session_laps w).1.1
  end.
Proof.
  unfold bulk_refresh.
  pose proof (scan_seasons_no_final_line SEASONS SESSIONS w) as Hno.
  destruct (scan_seasons World disk get_event_schedule load_session_laps
              SEASONS SESSIONS w) as [[out w'] [e|]]; simpl in *.
  - exact Hno.
  - apply last_snoc.
Qed.

End RefreshLog.

Lemma cached_season_fetches_nothing_witness :
  scan_events filesystem id provider_down 2023 ["Bahrain Grand Prix"] ["Q"]
    interrupted_fetch =
  ([Cached 2023 "Bahrain Grand Prix" "Q"], interrupted_fetch).
Proof.
  apply (cached_season_fetches_nothing id provider_down 2023
           ["Bahrain Grand Prix"] ["Q"] interrupted_fetch).
  intros gp s ->%list_elem_of_singleton ->%list_elem_of_singleton.
  vm_compute. reflexivity.
Defined.

(** ** The driver list *)

Lemma elem_of_unique (values : list string) (x : string) :
  x ∈ unique values ↔ x ∈ values.
Proof.
  induction values as [|y rest IH]; simpl; [done |].
  rewrite !elem_of_cons, list_elem_of_filter, IH.
  destruct (decide (x = y)); tauto.
Qed.

Lemma NoDup_unique (values : list string) : NoDup (unique values).
Proof.
  induction values as [|y rest IH]; simpl; [constructor |].
  apply NoDup_cons. split.
  - rewrite list_elem_of_filter. by intros [Hne _].
  - by apply NoDup_filter.
Qed.

(** X10: the driver list holds exactly the driver codes that occur in the
    lap table, each once, in ascending order; it is the only such list, so
    it does not depend on the order of the laps. *)
Theorem drivers_sorted_distinct (session : F1.Session) :
  Sorted String.le (get_drivers_in_session session) ∧
  NoDup (get_drivers_in_session session) ∧
  (∀ d, d ∈ get_drivers_in_session session ↔
        ∃ lap, lap ∈ F1.laps session ∧ F1.Driver lap = d) ∧
  (∀ session', F1.laps session' ≡ₚ F1.laps session →
               get_drivers_in_session session' =
               get_drivers_in_session session).
Proof.
  unfold get_drivers_in_session.
  assert (∀ s d, d ∈ merge_sort String.le (unique (map F1.Driver (F1.laps s)))
                 ↔ ∃ lap, lap ∈ F1.laps s ∧ F1.Driver lap = d) as Hmem.
  { intros s d. rewrite merge_sort_Permutation, elem_of_unique.
    rewrite list_elem_of_fmap. split.
    - intros (lap & -> & Hin). by exists lap.
    - intros (lap & Hin & <-). by exists lap. }
  assert (∀ s, NoDup (merge_sort String.le
                        (unique (map F1.Driver (F1.laps s))))) as Hnd.
  { intros s. rewrite merge_sort_Permutation. apply NoDup_unique. }
  split; [apply Sorted_merge_sort, _ |].
  split; [apply Hnd |]. split; [apply Hmem |].
  intros session' Hperm.
  apply (StronglySorted_unique_strong String.le).
  - intros x1 x2 _ _ H1 H2. by apply (anti_symm String.le).
  - apply StronglySorted_merge_sort; apply _.
  - apply StronglySorted_merge_sort; apply _.
  - apply NoDup_Permutation; [apply Hnd | apply Hnd |].
    intros d. rewrite !Hmem. by setoid_rewrite Hperm.
Qed.

Example drivers_of_sample_session :
  get_drivers_in_session sample_session = ["HAM"; "VER"].
Proof. vm_compute. reflexivity. Qed.

(** ** More on the model tab *)

Lemma length_default_feature_names (n : nat) :
  length (default_feature_names n) = n.
Proof. unfold default_feature_names. by rewrite length_map, length_seq. Qed.

(** X11: when the preprocessing step cannot name its features, the names
    [feature_0], [feature_1], ... stand in, one per importance score: the
    ranking is always built and the chart shown, never the error about
    columns of different length. *)
Theorem fallback_names_always_fit
    (sort_values : list (string * Z) → list (string * Z))
    (model_pipe : Pipeline) (e : string) (importances : list Z) :
  pre_step model_pipe = Some (inl e) →
  model_step model_pipe = Some (Some importances) →
  imp_df sort_values (default_feature_names (length importances)) importances
    = inr (sort_values
             (zip (default_feature_names (length importances)) importances)) ∧
  feature_importance_block sort_values model_pipe =
    [StPyplot (top_imp (sort_values
       (zip (default_feature_names (length importances)) importances)))].
Proof.
  intros Hpre Hmodel.
  assert (imp_df sort_values (default_feature_names (length importances))
            importances
          = inr (sort_values
                   (zip (default_feature_names (length importances))
                        importances))) as Hdf.
  { unfold imp_df. by rewrite length_default_feature_names, Nat.eqb_refl. }
  split; [exact Hdf |].
  unfold feature_importance_block. by rewrite Hpre, Hmodel, Hdf.
Qed.

Lemma fallback_names_always_fit_witness :
  feature_importance_block sort_stable sample_pipeline =
  [StPyplot [("feature_2", 3%Z); ("feature_0", 3%Z); ("feature_1", 11%Z)]].
Proof.
  apply (proj2 (fallback_names_always_fit sort_stable sample_pipeline
                  "not fitted" [3; 11; 3]%Z eq_refl eq_refl)).
Defined.

Lemma StronglySorted_rev {A} (R : relation A) (l : list A) :
  StronglySorted R l → StronglySorted (flip R) (rev l).
Proof.
  induction 1 as [|x l Hl IH Hx]; simpl; [constructor |].
  apply StronglySorted_app_2; [|done | repeat constructor].
  intros x1 x2 Hx1 ->%list_elem_of_singleton. unfold flip.
  rewrite Forall_forall in Hx. apply Hx.
  by apply list_elem_of_In, in_rev, list_elem_of_In.
Qed.

(** X12: the chart shows the [min 20 n] most important of the [n] features,
    the most important one last: no row left out of the chart is more
    important than a row in it. *)
Theorem chart_shows_top_rows
    (sort_values : list (string * Z) → list (string * Z))
    (sort_values_perm : ∀ rows, Permutation (sort_values rows) rows)
    (sort_values_sorted :
       ∀ rows, Sorted (fun a b => (a.2 >= b.2)%Z) (sort_values rows))
    (feature_names : list string) (importances : list Z)
    (df : list (string * Z)) :
  imp_df sort_values feature_names importances = inr df →
  length (top_imp df) = min 20 (length importances) ∧
  Sorted (fun a b => (a.2 <= b.2)%Z) (top_imp df) ∧
  df ≡ₚ top_imp df ++ drop 20 df ∧
  (∀ r r', r ∈ top_imp df → r' ∈ drop 20 df → (r'.2 <= r.2)%Z).
Proof.
  unfold imp_df. destruct (Nat.eqb_spec (length feature_names)
                                        (length importances)) as [Hlen|];
    [|discriminate].
  intros [= <-].
  set (df := sort_values (zip feature_names importances)).
  assert (length df = length importances) as Hdf.
  { unfold df. rewrite (Permutation_length (sort_values_perm _)), length_zip.
    lia. }
  assert (StronglySorted (fun a b : string * Z => (a.2 >= b.2)%Z)
            (take 20 df ++ drop 20 df)) as Hss.
  { rewrite take_drop. apply Sorted.Sorted_StronglySorted.
    - intros a b c ??. lia.
    - apply sort_values_sorted. }
  apply StronglySorted_app in Hss as (Hcross & Htake & _).
  unfold top_imp, top_n. split; [|split; [|split]].
  - by rewrite length_rev, length_take, Hdf.
  - apply StronglySorted_Sorted.
    apply (StronglySorted_rev _ _) in Htake.
    eapply StronglySorted_ind; [constructor | | exact Htake].
    intros a l Hl IH Ha. constructor; [exact IH |].
    eapply Forall_impl; [exact Ha |]. unfold flip. simpl. intros; lia.
  - rewrite <- Permutation_rev. by rewrite take_drop.
  - intros r r' Hr Hr'.
    apply list_elem_of_In, in_rev, list_elem_of_In in Hr.
    specialize (Hcross r r' Hr Hr'). simpl in Hcross. lia.
Qed.

Lemma chart_shows_top_rows_witness :
  length (top_imp (sort_stable (zip ["speed_mean"; "sector_1_time"]
                                    [7; 9]%Z)))
  = min 20 (length [7; 9]%Z).
Proof.
  apply (chart_shows_top_rows sort_stable sort_stable_perm sort_stable_sorted
           ["speed_mean"; "sector_1_time"] [7; 9]%Z).
  reflexivity.
Defined.

Lemma importance_block_no_predict
    (sort_values : list (string * Z) → list (string * Z))
    (model_pipe : Pipeline) (d : gmap string pyval) :
  ModelPredict d ∉ feature_importance_block sort_values model_pipe.
Proof.
  unfold feature_importance_block.
  destruct (pre_step model_pipe) as [names|];
    [|by intros [=]%list_elem_of_singleton].
  destruct (model_step model_pipe) as [[imps|]|];
    [|by intros [=]%list_elem_of_singleton..].
  destruct (imp_df _ _ _) as [[?|?]|?];
    by intros [=]%list_elem_of_singleton.
Qed.

Lemma handler_predict_inv (predict : gmap string pyval → string + float)
    (user_kv_text : string) (out : list st_event) (d : gmap string pyval) :
  predict_laptime_btn predict user_kv_text = inr out →
  ModelPredict d ∈ out →
  parse_features (PyStr.splitlines user_kv_text) = inr d ∧ d ≠ ∅.
Proof.
  unfold predict_laptime_btn.
  destruct (PyStr.is_empty _).
  { intros [= <-] [=]%list_elem_of_singleton. }
  destruct (parse_features _) as [e|fd]; [done |].
  destruct (Nat.eqb_spec (size fd) 0) as [|Hsize].
  { intros [= <-] [=]%list_elem_of_singleton. }
  intros [= <-] Hin.
  assert (fd = d) as <-.
  { simpl in Hin. repeat (apply elem_of_cons in Hin as [[=]|Hin]); [done |].
    destruct (predict fd);
      repeat (apply elem_of_cons in Hin as [[=]|Hin]);
      by apply elem_of_nil in Hin. }
  split; [done |]. intros ->. by rewrite map_size_empty in Hsize.
Qed.

Local Ltac split_elem H :=
  repeat first
    [ apply elem_of_app in H as [H|H]
    | apply elem_of_cons in H as [H|H]
    | (apply elem_of_nil in H; destruct H) ];
  try discriminate H.

(** X13: tab 6 calls the model only when it has been asked to and has
    something to ask: the pipeline was loaded, the button was pressed, and
    the record passed is the non-empty record parsed from the text area. *)
Theorem model_called_only_on_request
    (joblib_load : string → string + Pipeline)
    (sort_values : list (string * Z) → list (string * Z))
    (clicked : bool) (user_kv_text : string) (out : list st_event)
    (d : gmap string pyval) :
  tab6 joblib_load sort_values clicked user_kv_text = inr out →
  ModelPredict d ∈ out →
  clicked = true ∧
  (∃ pipe, joblib_load "models/laptime_best_model.pkl" = inr pipe) ∧
  parse_features (PyStr.splitlines user_kv_text) = inr d ∧ d ≠ ∅.
Proof.
  unfold tab6, load_laptime_model.
  destruct (joblib_load "models/laptime_best_model.pkl") as [e|pipe].
  { intros [= <-] Hin. split_elem Hin. }
  destruct clicked.
  - destruct (predict_laptime_btn (predict pipe) user_kv_text) as [e|evs]
      eqn:Hbtn; [done |].
    intros [= <-] Hin. split; [done |]. split; [by eexists |].
    apply (handler_predict_inv (predict pipe) user_kv_text evs d Hbtn).
    split_elem Hin; [|done].
    by apply importance_block_no_predict in Hin.
  - intros [= <-] Hin. exfalso. split_elem Hin.
    by apply importance_block_no_predict in Hin.
Qed.

Lemma model_called_only_on_request_witness :
  parse_features (PyStr.splitlines one_pair_text)
  = inr {[ "tyre_life" := VFloat 7%float ]}.
Proof.
  eapply (model_called_only_on_request joblib_load_sample sort_stable true
            one_pair_text _ {[ "tyre_life" := VFloat 7%float ]}).
  - vm_compute. reflexivity.
  - do 7 right. left.
Defined.

Lemma handler_returns (predict : gmap string pyval → string + float)
    (user_kv_text : string) :
  ∃ out, predict_laptime_btn predict user_kv_text = inr out.
Proof.
  unfold predict_laptime_btn, parse_features.
  destruct (PyStr.is_empty _); [by eexists |].
  rewrite feature_loop_fold.
  destruct (size _ =? 0)%nat; by eexists.
Qed.

(** X17: no exception leaves tab 6, whatever the model file, the pipeline,
    the button and the text area hold: a failed load, a failed ranking and
    a failed prediction are shown on the page, and unpacking a split line
    cannot fail.  The page therefore always keeps what the other tabs have
    shown. *)
Theorem prediction_tab_never_raises
    (joblib_load : string → string + Pipeline)
    (sort_values : list (string * Z) → list (string * Z))
    (analytics : list st_event) (clicked : bool) (user_kv_text : string) :
  ∃ evs,
    tab6 joblib_load sort_values clicked user_kv_text = inr evs ∧
    driver_page joblib_load sort_values analytics clicked user_kv_text
    = inr (analytics ++ evs).
Proof.
  assert (∃ evs, tab6 joblib_load sort_values clicked user_kv_text = inr evs)
    as [evs Ht].
  { unfold tab6. destruct (load_laptime_model joblib_load) as [[pipe|] shown];
      [|by eexists].
    destruct clicked; [|by eexists].
    destruct (handler_returns (predict pipe) user_kv_text) as [out ->].
    by eexists. }
  exists evs. split; [done |]. unfold driver_page. by rewrite Ht.
Qed.

(** ** The driver race summary *)

Module SummaryFacts.
Import Summary.

Lemma count_from_cons (prev x : option Z) (rest : column) :
  count_from prev (x :: rest) =
  ((if changed prev x then 1 else 0) + count_from x rest)%nat.
Proof.
  unfold count_from, fillna. simpl.
  destruct x as [a|], prev as [b|]; simpl; rewrite ?filter_cons;
    try (destruct (decide (0%Z ≠ 0%Z)); [done | reflexivity]).
  destruct (decide ((a - b)%Z ≠ 0%Z)) as [Hne|Heq]; destruct (Z.eqb_spec b a);
    simpl; try reflexivity; lia.
Qed.

Lemma count_from_head (prev : option Z) (col : column) :
  count_from prev col =
  ((if changed prev (mjoin (head col)) then 1 else 0)
   + count_from None col)%nat.
Proof.
  destruct col as [|x rest]; [by destruct prev |].
  rewrite !count_from_cons. simpl.
  destruct prev, x; simpl; lia.
Qed.

Lemma count_from_snoc (prev x : option Z) (col : column) :
  count_from prev (col ++ [x]) =
  (count_from prev col
   + (if changed (default prev (last col)) x then 1 else 0))%nat.
Proof.
  revert prev. induction col as [|y rest IH]; intros prev.
  - simpl. rewrite count_from_cons. unfold count_from. simpl. lia.
  - rewrite <- app_comm_cons, !count_from_cons, IH.
    rewrite last_cons. destruct (last rest); simpl; lia.
Qed.

Lemma changed_sym (a b : option Z) : changed a b = changed b a.
Proof.
  destruct a as [x|], b as [y|]; simpl; try done.
  by rewrite Z.eqb_sym.
Qed.

Lemma last_rev_head {A} (l : list A) : last (rev l) = head l.
Proof. destruct l as [|x l]; [done |]. simpl. apply last_snoc. Qed.

Lemma count_from_bound (prev : option Z) (col : column) :
  (count_from prev col <= length col)%nat.
Proof.
  revert prev. induction col as [|x rest IH]; intros prev; [done |].
  rewrite count_from_cons. specialize (IH x). simpl.
  destruct (changed prev x); lia.
Qed.

Lemma count_from_pairs (prev : option Z) (col : column) :
  count_from prev col =
  length (filter (fun p => changed p.1 p.2 = true) (zip (prev :: col) col)).
Proof.
  revert prev. induction col as [|x rest IH]; intros prev; [done |].
  rewrite count_from_cons, IH. simpl zip. rewrite filter_cons. simpl.
  destruct (changed prev x); simpl.
  - by destruct (decide (true = true)).
  - by destruct (decide (false = true)).
Qed.

End SummaryFacts.

(** X14: the estimated overtakes are the number of pairs of neighbouring
    laps whose positions are both known and differ.  So there are at most
    as many as laps less one (none for an empty or single-lap table), and
    positions lost count like positions won: read backwards, the laps give
    the same number. *)
Theorem overtakes_count_changes (positions : list (option Z)) :
  Summary.estimated_overtakes positions
  = length (filter (fun p => Summary.changed p.1 p.2 = true)
                   (zip positions (drop 1 positions))) ∧
  (Summary.estimated_overtakes positions <= length positions - 1)%nat ∧
  Summary.estimated_overtakes (rev positions)
  = Summary.estimated_overtakes positions.
Proof.
  change Summary.estimated_overtakes with (Summary.count_from None).
  split; [|split].
  - rewrite SummaryFacts.count_from_pairs.
    destruct positions as [|x rest]; [done |].
    simpl zip. rewrite filter_cons. simpl.
    by destruct (decide (false = true)).
  - destruct positions as [|x rest]; [done |].
    rewrite SummaryFacts.count_from_cons. simpl.
    pose proof (SummaryFacts.count_from_bound x rest). lia.
  - induction positions as [|x rest IH]; [done |].
    simpl. rewrite SummaryFacts.count_from_snoc, IH.
    rewrite SummaryFacts.last_rev_head, SummaryFacts.count_from_cons.
    rewrite (SummaryFacts.count_from_head x rest). simpl.
    rewrite (SummaryFacts.changed_sym x).
    destruct (head rest) as [y|]; simpl; lia.
Qed.

(** X15: the number of pit stops in the summary is the number of rows of
    the pit stop table below it, so "No pit stops recorded" appears exactly
    when the summary says 0. *)
Theorem pit_stop_count_matches_table (pit_in_time : list (option Z)) :
  Summary.pit_stops_count pit_in_time
  = length (Summary.pit_stops pit_in_time) ∧
  (Summary.pit_stops pit_in_time = [] ↔
   Summary.pit_stops_count pit_in_time = 0%nat).
Proof.
  assert (∀ start, sum_list (map (fun x : option Z => if x is Some _ then 1 else 0)
                                 pit_in_time)
                   = length (omap (fun '(i, x) => (fun t => (i, t)) <$> x)
                               (zip (seq start (length pit_in_time))
                                    pit_in_time))) as H.
  { induction pit_in_time as [|x rest IH]; intros start; simpl; [done |].
    rewrite (IH (S start)). by destruct x. }
  unfold Summary.pit_stops_count, Summary.pit_stops.
  split; [apply H |]. rewrite (H 0%nat).
  by destruct (omap _ _).
Qed.
